(** * Platform lookup service: a shallow embedding of [app.py]

    The service keeps a list of platform records in the JSON file
    [platforms.json].  Every request handler re-reads the whole file, works
    on a local list, and (for mutations) overwrites the whole file.

    Modelling choices.
    - A Python [str] is a Rocq [string], one [ascii] per character: the model
      covers the strings whose code points are below 256.  In that range the
      class [\d] of Python's [re] holds exactly the characters 0 to 9.
    - The file is the only state: handlers are functions in a state and
      exception monad over the contents of the file.
    - Whether an overwrite of the file succeeds is decided by the
      environment; it is an argument of every mutating handler. *)

From Stdlib Require Import String Ascii List Bool Arith Lia.
From stdpp Require Import base list strings.
Import ListNotations.

Local Open Scope list_scope.

(** ** Regular expressions, as far as [address_must_be_valid] uses them *)

Module Re.

(** A position in the subject string: the number of characters already
    consumed and the rest of the string. *)
Definition cursor : Type := nat * string.

Inductive regex : Type :=
| Caret                                   (* ^      *)
| Dollar                                  (* $      *)
| Digit                                   (* \d     *)
| Lit (c : ascii)                         (* c, \.  *)
| Seq (r1 r2 : regex)                     (* r1r2   *)
| Repeat (r : regex) (lo hi : nat)        (* r{lo,hi} *)
| Plus (r : regex)                        (* r+     *)
| Opt (r : regex).                        (* (r)?   *)

Definition is_digit (c : ascii) : bool :=
  (48 <=? nat_of_ascii c) && (nat_of_ascii c <=? 57).

Definition newline : ascii := ascii_of_nat 10.

(** Between [lo] and [hi] successive matches of [f], most iterations
    first. *)
Fixpoint iter_between (f : cursor -> list cursor) (lo hi : nat) (c : cursor)
  : list cursor :=
  match hi with
  | O => if lo =? 0 then [c] else []
  | S hi' =>
      flat_map (iter_between f (Nat.pred lo) hi') (f c)
        ++ (if lo =? 0 then [c] else [])
  end.

(** All the ways [r] can match at [c], as the cursors it can end at.
    Without [re.MULTILINE], [$] holds at the end of the string and just
    before a newline that is the last character. *)
Fixpoint run (r : regex) (c : cursor) : list cursor :=
  match r with
  | Caret => if fst c =? 0 then [c] else []
  | Dollar =>
      match snd c with
      | EmptyString => [c]
      | String a EmptyString => if Ascii.eqb a newline then [c] else []
      | _ => []
      end
  | Digit =>
      match snd c with
      | String a s => if is_digit a then [(S (fst c), s)] else []
      | EmptyString => []
      end
  | Lit x =>
      match snd c with
      | String a s => if Ascii.eqb a x then [(S (fst c), s)] else []
      | EmptyString => []
      end
  | Seq r1 r2 => flat_map (run r2) (run r1 c)
  | Repeat r lo hi => iter_between (run r) lo hi c
  | Plus r => iter_between (run r) 1 (S (String.length (snd c))) c
  | Opt r => run r c ++ [c]
  end.

(** [re.match(r, v)]: a match anchored at the start of [v]; [true] when a
    match object is returned, [false] for [None]. *)
Definition matches (r : regex) (v : string) : bool :=
  match run r (0, v) with
  | [] => false
  | _ :: _ => true
  end.

End Re.

Import Re.

Declare Scope regex_scope.
Delimit Scope regex_scope with re.
Infix ">>" := Seq (at level 41, right associativity) : regex_scope.

(** [str.startswith(prefix)] *)
Fixpoint startswith (v p : string) {struct p} : bool :=
  match p, v with
  | EmptyString, _ => true
  | String a p', String b v' => Ascii.eqb a b && startswith v' p'
  | String _ _, EmptyString => false
  end.

(** ** The data model *)

Definition DEFAULT_GROUP : string := "default".

Record Platform : Type := mkPlatform {
  id : string;
  address : string;
  public_credentials : string;
  group : string
}.

(** The exceptions the handlers and the file access can raise. *)
Inductive exn : Type :=
| HTTPException (status_code : nat) (detail : string)
| ValidationError (fields : list string)   (* pydantic: the offending fields *)
| JSONDecodeError
| OSError.

(** r'^\d{1,3}\.\d{1,3}\.\d{1,3}\.\d{1,3}(:\d+)?$' *)
Definition ip_pattern : regex :=
  (Caret >> Repeat Digit 1 3 >> Lit "." >> Repeat Digit 1 3 >> Lit "."
     >> Repeat Digit 1 3 >> Lit "." >> Repeat Digit 1 3
     >> Opt (Lit ":" >> Plus Digit) >> Dollar)%re.

Definition uri_prefixes : list string :=
  ["http://"; "https://"; "tcp://"; "ipc://"].

(** The test of [address_must_be_valid]: the negation of its [if not]. *)
Definition address_ok (v : string) : bool :=
  existsb (startswith v) uri_prefixes || matches ip_pattern v.

(** A field validator returns the value or raises [ValueError] with a
    message. *)
Definition address_must_be_valid (v : string) : string + string :=
  if negb (address_ok v)
  then inl "Address must be a valid URL, IP address, or protocol URI"
  else inr v.

Definition credential_must_be_valid (v : string) : string + string :=
  if String.length v <? 16
  then inl "Public credential must be at least 16 characters long"
  else inr v.

Definition failed (field : string) (r : string + string) : list string :=
  match r with inl _ => [field] | inr _ => [] end.

(** [Platform(id=.., address=.., public_credentials=.., group=..)]: pydantic
    runs the field validators and collects the fields that failed.  [id] and
    [group] are declared [str] with no validator and no constraint. *)
Definition Platform_init (p : Platform) : exn + Platform :=
  match failed "address" (address_must_be_valid (address p))
          ++ failed "public_credentials"
               (credential_must_be_valid (public_credentials p)) with
  | [] => inr p
  | errs => inl (ValidationError errs)
  end.

(** A request body: [group] may be left out. *)
Record Body : Type := mkBody {
  body_id : string;
  body_address : string;
  body_public_credentials : string;
  body_group : option string
}.

Definition Platform_of_body (b : Body) : exn + Platform :=
  Platform_init
    {| id := body_id b;
       address := body_address b;
       public_credentials := body_public_credentials b;
       group := default DEFAULT_GROUP (body_group b) |}.

(** ** The file and the handlers' monad *)

(** What [platforms.json] holds: nothing (no such file), the JSON array
    written by [_store_platforms], or text that [json.load] cannot parse (the
    file as a failed overwrite leaves it). *)
Inductive disk : Type :=
| NoFile
| File (records : list Platform)
| Corrupt.

(** How an overwrite of the file ends.  [open(platform_file, "w")] truncates
    the file before [json.dump] writes to it: a failure of [open] leaves the
    file as it was, a failure after it leaves the text incomplete. *)
Inductive write_outcome : Type :=
| WriteOk
| OpenFails
| DumpFails.

(** A handler reads and writes the file and returns a value or raises. *)
Definition M (A : Type) : Type := disk -> (exn + A) * disk.

Definition ret {A} (a : A) : M A := fun d => (inr a, d).
Definition raise {A} (e : exn) : M A := fun d => (inl e, d).
Definition bind {A B} (m : M A) (k : A -> M B) : M B :=
  fun d =>
    match m d with
    | (inr a, d') => k a d'
    | (inl e, d') => (inl e, d')
    end.
Definition lift {A} (r : exn + A) : M A := fun d => (r, d).

Notation "'do' x <- m ; k" := (bind m (fun x => k))
  (at level 10, x name, m at level 100, k at level 200).
Notation "'exec' m ; k" := (bind m (fun _ => k))
  (at level 10, m at level 100, k at level 200).

(** The comprehension of [_load_platforms]: a [Platform] is built, and so
    validated, from every dict of [platforms_data]. *)
Fixpoint parse_all (data : list Platform) : exn + list Platform :=
  match data with
  | [] => inr []
  | p :: rest =>
      match Platform_init p with
      | inl e => inl e
      | inr q =>
          match parse_all rest with
          | inl e => inl e
          | inr qs => inr (q :: qs)
          end
      end
  end.

Definition _load_platforms : M (list Platform) :=
  fun d =>
    match d with
    | NoFile => (inr [], d)                       (* FileNotFoundError *)
    | File data => (parse_all data, d)
    | Corrupt => (inl JSONDecodeError, d)
    end.

(** [with lock: return _load_platforms()] *)
Definition get_platforms : M (list Platform) := _load_platforms.

Definition _store_platforms (platforms : list Platform) (w : write_outcome)
  : M unit :=
  fun d =>
    match w with
    | WriteOk => (inr tt, File platforms)
    | OpenFails => (inl OSError, d)
    | DumpFails => (inl OSError, Corrupt)
    end.

(** ** The request handlers *)

(** The test of the first loop of [register_platform]. *)
Definition same_platform (platform itr : Platform) : bool :=
  String.eqb (id platform) (id itr)
  && String.eqb (address platform) (address itr)
  && String.eqb (public_credentials platform) (public_credentials itr).

(** The first loop of [register_platform]: [Some v] when the loop returns
    [v], [None] when it runs to its end. *)
Fixpoint find_same (platform : Platform) (platforms : list Platform)
  : option Platform :=
  match platforms with
  | [] => None
  | itr :: rest =>
      if same_platform platform itr then Some platform
      else find_same platform rest
  end.

Definition id_exists_detail (platform : Platform) : string :=
  "Platform with ID '" +:+ id platform +:+ "' already exists".
Definition address_exists_detail (platform : Platform) : string :=
  "Platform with address '" +:+ address platform +:+ "' already exists".
Definition credential_exists_detail (platform : Platform) : string :=
  "Platform with public credential '" +:+ public_credentials platform
    +:+ "' already exists".
Definition not_found_detail (platform_id : string) : string :=
  "Platform with ID '" +:+ platform_id +:+ "' not found".

Definition register_platform (platform : Platform) (w : write_outcome)
  : M Platform :=
  do platforms <- get_platforms;
  match find_same platform platforms with
  | Some r => ret r
  | None =>
      if existsb (fun p => String.eqb (id p) (id platform)) platforms
      then raise (HTTPException 400 (id_exists_detail platform))
      else if existsb (fun p => String.eqb (address p) (address platform))
                platforms
      then raise (HTTPException 400 (address_exists_detail platform))
      else if existsb (fun p => String.eqb (public_credentials p)
                                  (public_credentials platform)) platforms
      then raise (HTTPException 400 (credential_exists_detail platform))
      else
        exec _store_platforms (platforms ++ [platform]) w;
        ret platform
  end.

(** The loop of [read_platform]. *)
Fixpoint find_by_id (platform_id : string) (platforms : list Platform)
  : option Platform :=
  match platforms with
  | [] => None
  | platform :: rest =>
      if String.eqb (id platform) platform_id then Some platform
      else find_by_id platform_id rest
  end.

Definition read_platform (platform_id : string) : M Platform :=
  do platforms <- get_platforms;
  match find_by_id platform_id platforms with
  | Some platform => ret platform
  | None => raise (HTTPException 404 (not_found_detail platform_id))
  end.

(** The loop of [update_platform] over [enumerate(platforms)], from index
    [i] on; [rest] is what is left to visit of [platforms]. *)
Fixpoint update_loop (platform_id : string) (updated_platform : Platform)
    (w : write_outcome) (platforms : list Platform)
    (i : nat) (rest : list Platform) : M Platform :=
  match rest with
  | [] => raise (HTTPException 404 (not_found_detail platform_id))
  | platform :: rest' =>
      if String.eqb (id platform) platform_id then
        if negb (String.eqb (id updated_platform) platform_id)
        then raise (HTTPException 400 "Cannot change platform ID")
        else
          exec _store_platforms (<[i := updated_platform]> platforms) w;
          ret updated_platform
      else update_loop platform_id updated_platform w platforms (S i) rest'
  end.

Definition update_platform (platform_id : string) (updated_platform : Platform)
    (w : write_outcome) : M Platform :=
  do platforms <- get_platforms;
  update_loop platform_id updated_platform w platforms 0 platforms.

Definition deleted_message (platform_id : string) : string :=
  "Platform '" +:+ platform_id +:+ "' deleted successfully".

Definition delete_platform (platform_id : string) (w : write_outcome)
  : M string :=
  do platforms <- get_platforms;
  let initial_count := length platforms in
  let platforms :=
    List.filter (fun p => negb (String.eqb (id p) platform_id)) platforms in
  if length platforms =? initial_count
  then raise (HTTPException 404 (not_found_detail platform_id))
  else
    exec _store_platforms platforms w;
    ret (deleted_message platform_id).

Definition list_platforms : M (list Platform) := get_platforms.

(** The two routes that take a [Platform] body: the framework builds the
    [Platform] from the body, which runs the validators, before it calls the
    handler. *)
Definition post_platform (b : Body) (w : write_outcome) : M Platform :=
  do platform <- lift (Platform_of_body b);
  register_platform platform w.

Definition put_platform (platform_id : string) (b : Body) (w : write_outcome)
  : M Platform :=
  do updated_platform <- lift (Platform_of_body b);
  update_platform platform_id updated_platform w.

(** ** Sequences of calls *)

(** A run of [register_platform] calls, each with the outcome of its write;
    [None] as soon as one call fails. *)
Fixpoint register_all (calls : list (Platform * write_outcome)) (d : disk)
  : option disk :=
  match calls with
  | [] => Some d
  | (platform, w) :: rest =>
      match register_platform platform w d with
      | (inr _, d') => register_all rest d'
      | (inl _, _) => None
      end
  end.

(** ** The invariants of the specification, on a list of records *)

(** The live records: the records held by the file. *)
Definition records (d : disk) : list Platform :=
  match d with
  | File data => data
  | NoFile | Corrupt => []
  end.

Definition I1 (ps : list Platform) : Prop := List.NoDup (map id ps).
Definition I2 (ps : list Platform) : Prop := List.NoDup (map address ps).
Definition I3 (ps : list Platform) : Prop :=
  List.NoDup (map public_credentials ps).

Definition unique_fields (ps : list Platform) : Prop :=
  I1 ps /\ I2 ps /\ I3 ps.

(** ** The syntax of addresses and ids, in the words of the specification *)

Fixpoint all_chars (ok : ascii -> bool) (s : string) : bool :=
  match s with
  | EmptyString => true
  | String a s' => ok a && all_chars ok s'
  end.

Definition all_digits (s : string) : bool := all_chars is_digit s.

(** One of the four numbers of an IPv4 literal, as its syntax only: one to
    three decimal digits. *)
Definition octet_syntax (s : string) : Prop :=
  all_digits s = true /\ 1 <= String.length s <= 3.

(** A port, as its syntax only: one decimal digit or more. *)
Definition port_syntax (s : string) : Prop :=
  all_digits s = true /\ 1 <= String.length s.

(** "an IPv4 literal optionally suffixed with :port" *)
Definition ipv4_port_syntax (v : string) : Prop :=
  exists a b c d,
    octet_syntax a /\ octet_syntax b /\ octet_syntax c /\ octet_syntax d
    /\ (v = a +:+ "." +:+ b +:+ "." +:+ c +:+ "." +:+ d
        \/ exists p,
            port_syntax p
            /\ v = a +:+ "." +:+ b +:+ "." +:+ c +:+ "." +:+ d +:+ ":" +:+ p).

(** "a URI beginning with http://, https://, tcp://, or ipc://" *)
Definition uri_syntax (v : string) : Prop :=
  exists scheme rest, In scheme uri_prefixes /\ v = scheme +:+ rest.

Definition spec_address (v : string) : Prop :=
  ipv4_port_syntax v \/ uri_syntax v.

Definition is_alnum (c : ascii) : bool :=
  let n := nat_of_ascii c in
  ((48 <=? n) && (n <=? 57)) || ((65 <=? n) && (n <=? 90))
  || ((97 <=? n) && (n <=? 122)).

(** "restricted to alphanumeric characters, underscores, hyphens; must be
    non-empty" *)
Definition spec_id_ok (s : string) : bool :=
  negb (String.eqb s EmptyString)
  && all_chars (fun c => is_alnum c || Ascii.eqb c "_" || Ascii.eqb c "-") s.

(** The characters an IPv4 literal with a port is made of. *)
Definition ip_char (c : ascii) : bool :=
  is_digit c || Ascii.eqb c "." || Ascii.eqb c ":".

(** ** Auxiliary definitions for the proofs *)

(** The file after an overwrite with [ps] ended as [w] says. *)
Definition write_result (ps : list Platform) (w : write_outcome) (d : disk)
  : disk :=
  match w with
  | WriteOk => File ps
  | OpenFails => d
  | DumpFails => Corrupt
  end.

(** The index at which the loop of [update_platform] stops. *)
Fixpoint first_index (platform_id : string) (ps : list Platform)
  : option nat :=
  match ps with
  | [] => None
  | p :: rest =>
      if String.eqb (id p) platform_id then Some 0
      else option_map S (first_index platform_id rest)
  end.

(** What a mutating handler that returned [r] can have done to the file:
    nothing, a completed overwrite, or an overwrite that failed after the
    file was opened. *)
Definition write_effect {A} (w : write_outcome) (d : disk) (r : exn + A)
    (d' : disk) : Prop :=
  d' = d
  \/ (w = WriteOk /\ (exists v, r = inr v) /\ exists ps, d' = File ps)
  \/ (w = DumpFails /\ r = inl OSError /\ d' = Corrupt).

(** A record that the validators accept. *)
Definition valid (p : Platform) : Prop := Platform_init p = inr p.

(** ** Examples *)

Definition p1 : Platform :=
  mkPlatform "p1" "tcp://10.0.0.1:5555" "0123456789abcdef" "default".
Definition p1_other_address : Platform :=
  mkPlatform "p1" "tcp://10.0.0.2:5555" "fedcba9876543210" "default".
Definition p2_same_address : Platform :=
  mkPlatform "p2" "tcp://10.0.0.1:5555" "fedcba9876543210" "default".
Definition p2 : Platform :=
  mkPlatform "p2" "10.0.0.2:5555" "fedcba9876543210" "default".
Definition p2_moved : Platform :=
  mkPlatform "p2" "10.0.0.9:5555" "fedcba9876543210" "blue".
Definition nl : string := String newline EmptyString.
Definition ip_newline : string := "1.2.3.4" +:+ nl.
Definition body_ip_newline : Body :=
  mkBody "p3" ip_newline "0123456789abcdef" None.
Definition body_bad_id : Body :=
  mkBody "bad id!" "tcp://10.0.0.1:5555" "0123456789abcdef" None.
Definition body_empty_id : Body :=
  mkBody EmptyString "tcp://10.0.0.2:5555" "fedcba9876543210" None.
Definition p1_production : Platform :=
  mkPlatform "p1" "tcp://10.0.0.1:5555" "0123456789abcdef" "production".

Example scenario_register :
  register_platform p1 WriteOk NoFile = (inr p1, File [p1]).
Proof. reflexivity. Qed.

Example scenario_conflict_id :
  register_platform p1_other_address WriteOk (File [p1])
  = (inl (HTTPException 400 "Platform with ID 'p1' already exists"),
     File [p1]).
Proof. reflexivity. Qed.

Example scenario_conflict_address :
  register_platform p2_same_address WriteOk (File [p1])
  = (inl (HTTPException 400
            "Platform with address 'tcp://10.0.0.1:5555' already exists"),
     File [p1]).
Proof. reflexivity. Qed.

Example scenario_delete_get :
  delete_platform "p1" WriteOk (File [p1])
  = (inr "Platform 'p1' deleted successfully", File [])
  /\ read_platform "p1" (File [])
     = (inl (HTTPException 404 "Platform with ID 'p1' not found"), File []).
Proof. split; reflexivity. Qed.

Example address_samples :
  map address_ok
    ["10.0.0.2:5555"; "1.2.3.4"; "999.999.999.999"; "1.2.3"; "1.2.3.4:";
     "1.2.3.4:80x"; "1234.1.1.1"; "example.com"; "ipc://"; "ftp://h";
     "a1.2.3.4"; "1.2.3.4" +:+ nl; "1.2.3.4:80" +:+ nl;
     "1.2.3.4" +:+ nl +:+ nl]
  = [true; true; true; false; false; false; false; false; true; false;
     false; true; true; false].
Proof. vm_compute. reflexivity. Qed.

(** ** Basic facts on validation and on reading the file *)

Lemma Platform_init_inr p q : Platform_init p = inr q -> q = p.
Proof.
  unfold Platform_init.
  destruct (_ ++ _); intros H; [now inversion H | discriminate].
Qed.

Lemma parse_all_inr data qs : parse_all data = inr qs -> qs = data.
Proof.
  revert qs. induction data as [|p data IH]; simpl; intros qs H.
  - now inversion H.
  - destruct (Platform_init p) as [e|q] eqn:Hp; [discriminate|].
    destruct (parse_all data) as [e|qs'] eqn:Hd; [discriminate|].
    inversion H; subst. f_equal.
    + now apply Platform_init_inr.
    + now apply IH.
Qed.

Lemma parse_all_valid data :
  parse_all data = inr data <->
  List.Forall (fun p => Platform_init p = inr p) data.
Proof.
  induction data as [|p data IH]; simpl.
  - split; [constructor | reflexivity].
  - split.
    + intros H.
      destruct (Platform_init p) as [e|q] eqn:Hp; [discriminate|].
      destruct (parse_all data) as [e|qs'] eqn:Hd; [discriminate|].
      inversion H; subst. constructor; [assumption|].
      apply IH. reflexivity.
    + intros H. inversion H as [|? ? Hp Hd]; subst.
      rewrite Hp. apply IH in Hd. now rewrite Hd.
Qed.

Lemma get_platforms_state d r d' : get_platforms d = (r, d') -> d' = d.
Proof.
  unfold get_platforms, _load_platforms.
  destruct d; intros H; now inversion H.
Qed.

Lemma get_platforms_inr d ps d' :
  get_platforms d = (inr ps, d') -> d' = d /\ ps = records d.
Proof.
  unfold get_platforms, _load_platforms.
  destruct d as [|data|]; intros H; inversion H; subst; auto.
  split; [reflexivity|]. simpl. now apply parse_all_inr.
Qed.

Lemma get_platforms_valid d ps :
  get_platforms d = (inr ps, d) ->
  List.Forall (fun p => Platform_init p = inr p) ps.
Proof.
  intros H. destruct (get_platforms_inr _ _ _ H) as [_ ->].
  destruct d as [|data|]; simpl in *; try constructor.
  unfold get_platforms, _load_platforms in H.
  inversion H as [H1]. apply parse_all_valid. exact H1.
Qed.

Lemma get_platforms_File ps :
  List.Forall (fun p => Platform_init p = inr p) ps ->
  get_platforms (File ps) = (inr ps, File ps).
Proof.
  intros H. unfold get_platforms, _load_platforms.
  apply parse_all_valid in H. now rewrite H.
Qed.

(** ** Facts on the loops *)

Lemma same_platform_spec p q :
  same_platform p q = true <->
  id p = id q /\ address p = address q
  /\ public_credentials p = public_credentials q.
Proof.
  unfold same_platform.
  rewrite !andb_true_iff, !String.eqb_eq. tauto.
Qed.

Lemma find_same_Some p ps r :
  find_same p ps = Some r ->
  r = p /\ exists q, In q ps /\ same_platform p q = true.
Proof.
  induction ps as [|q ps IH]; simpl; [discriminate|].
  destruct (same_platform p q) eqn:Hq.
  - intros H; inversion H; subst. split; [reflexivity|].
    exists q; auto.
  - intros H. destruct (IH H) as [-> (q' & Hin & Hs)].
    split; [reflexivity|]. exists q'; auto.
Qed.

Lemma find_same_None p ps :
  find_same p ps = None <-> forall q, In q ps -> same_platform p q = false.
Proof.
  induction ps as [|q ps IH]; simpl.
  - split; [intros _ ? [] | reflexivity].
  - destruct (same_platform p q) eqn:Hq.
    + split; [discriminate|]. intros H. specialize (H q (or_introl eq_refl)).
      congruence.
    + rewrite IH. split.
      * intros H q' [<-|Hin]; auto.
      * intros H q' Hin. apply H. now right.
Qed.

Lemma find_same_In p ps q :
  In q ps -> same_platform p q = true -> find_same p ps = Some p.
Proof.
  intros Hin Hs. destruct (find_same p ps) as [r|] eqn:Hf.
  - apply find_same_Some in Hf as [-> _]. reflexivity.
  - rewrite find_same_None in Hf. rewrite (Hf q Hin) in Hs. discriminate.
Qed.

Section FieldScan.
Variable f : Platform -> string.

(** [any(p.f == v for p in platforms)] *)
Lemma any_field_true v ps :
  existsb (fun p => String.eqb (f p) v) ps = true <->
  exists r, In r ps /\ f r = v.
Proof.
  rewrite existsb_exists. split; intros (r & Hin & H); exists r;
    (split; [assumption|]); now apply String.eqb_eq.
Qed.

Lemma any_field_false v ps :
  existsb (fun p => String.eqb (f p) v) ps = false <->
  ~ exists r, In r ps /\ f r = v.
Proof.
  rewrite <- any_field_true. destruct (existsb _ ps); split; congruence.
Qed.

Lemma any_field_false_notin v ps :
  existsb (fun p => String.eqb (f p) v) ps = false -> ~ In v (map f ps).
Proof.
  rewrite any_field_false. intros H Hin. apply H.
  apply in_map_iff in Hin as (r & Hr & Hin). eauto.
Qed.

Lemma NoDup_field_snoc p ps :
  List.NoDup (map f ps) ->
  existsb (fun q => String.eqb (f q) (f p)) ps = false ->
  List.NoDup (map f (ps ++ [p])).
Proof.
  intros Hnd Hex. apply any_field_false_notin in Hex.
  rewrite map_app. simpl.
  induction ps as [|q ps IH]; simpl in *.
  - constructor; [intros []|constructor].
  - inversion Hnd as [|? ? Hq Hnd']; subst. constructor.
    + rewrite in_app_iff. intros [Hin|[Heq|[]]]; [contradiction|].
      apply Hex. now left.
    + apply IH; [assumption|]. intros Hin. apply Hex. now right.
Qed.
End FieldScan.

(** ** [register_platform], case by case *)

Lemma register_platform_cases d ps p w :
  get_platforms d = (inr ps, d) ->
  register_platform p w d =
    match find_same p ps with
    | Some r => (inr r, d)
    | None =>
        if existsb (fun q => String.eqb (id q) (id p)) ps
        then (inl (HTTPException 400 (id_exists_detail p)), d)
        else if existsb (fun q => String.eqb (address q) (address p)) ps
        then (inl (HTTPException 400 (address_exists_detail p)), d)
        else if existsb (fun q => String.eqb (public_credentials q)
                                    (public_credentials p)) ps
        then (inl (HTTPException 400 (credential_exists_detail p)), d)
        else
          match w with
          | WriteOk => (inr p, File (ps ++ [p]))
          | _ => (inl OSError, write_result (ps ++ [p]) w d)
          end
    end.
Proof.
  intros Hload. unfold register_platform, bind. rewrite Hload.
  destruct (find_same p ps); [reflexivity|].
  repeat (destruct (existsb _ ps); [reflexivity|]).
  destruct w; reflexivity.
Qed.

Lemma register_platform_load_error d e d' p w :
  get_platforms d = (inl e, d') -> register_platform p w d = (inl e, d).
Proof.
  intros Hload. unfold register_platform, bind. rewrite Hload.
  now rewrite (get_platforms_state _ _ _ Hload).
Qed.

Lemma register_platform_ok d p w r d' :
  register_platform p w d = (inr r, d') ->
  r = p /\
  (d' = d
   \/ d' = File (records d ++ [p])
      /\ existsb (fun q => String.eqb (id q) (id p)) (records d) = false
      /\ existsb (fun q => String.eqb (address q) (address p)) (records d)
         = false
      /\ existsb (fun q => String.eqb (public_credentials q)
                             (public_credentials p)) (records d) = false).
Proof.
  destruct (get_platforms d) as [[e|ps] d0] eqn:Hload.
  - rewrite (register_platform_load_error _ _ _ _ _ Hload). discriminate.
  - destruct (get_platforms_inr _ _ _ Hload) as [-> ->].
    rewrite (register_platform_cases _ _ _ _ Hload).
    destruct (find_same p (records d)) as [r0|] eqn:Hf.
    + apply find_same_Some in Hf as [-> _].
      intros H; inversion H; subst; auto.
    + destruct (existsb _ (records d)) eqn:E1; [discriminate|].
      destruct (existsb (fun q => String.eqb (address q) _) (records d))
        eqn:E2; [discriminate|].
      destruct (existsb (fun q => String.eqb (public_credentials q) _)
                  (records d)) eqn:E3; [discriminate|].
      destruct w; try discriminate.
      intros H; inversion H; subst.
      split; [reflexivity|]. right. repeat split; reflexivity.
Qed.

Lemma register_preserves_unique d p w r d' :
  register_platform p w d = (inr r, d') ->
  unique_fields (records d) -> unique_fields (records d').
Proof.
  intros H (H1 & H2 & H3).
  apply register_platform_ok in H as [_ [->|(-> & E1 & E2 & E3)]].
  - repeat split; assumption.
  - simpl. repeat split; apply NoDup_field_snoc; assumption.
Qed.

Lemma register_all_app calls1 calls2 d :
  register_all (calls1 ++ calls2) d =
  match register_all calls1 d with
  | Some d1 => register_all calls2 d1
  | None => None
  end.
Proof.
  revert d. induction calls1 as [|[p w] calls1 IH]; simpl; intros d.
  - reflexivity.
  - destruct (register_platform p w d) as [[e|r] d1]; [reflexivity|].
    apply IH.
Qed.

Lemma register_all_unique_from calls d d' :
  unique_fields (records d) ->
  register_all calls d = Some d' -> unique_fields (records d').
Proof.
  revert d. induction calls as [|[p w] calls IH]; simpl; intros d Hd H.
  - inversion H; subst. assumption.
  - destruct (register_platform p w d) as [[e|r] d1] eqn:Hr; [discriminate|].
    apply (IH d1); [|assumption].
    eapply register_preserves_unique; eassumption.
Qed.

Lemma list_platforms_records d ps :
  fst (list_platforms d) = inr ps -> ps = records d.
Proof.
  unfold list_platforms. destruct (get_platforms d) as [r d0] eqn:Hload.
  simpl. intros ->. now apply get_platforms_inr in Hload.
Qed.

(** C1. Starting from an empty registry (no file, or a file with no
    record), after every completed call of a sequence of successful
    [register_platform] calls, the stored records have pairwise distinct ids
    (I1), pairwise distinct addresses (I2) and pairwise distinct credentials
    (I3); what [list_platforms] returns is this list of stored records. *)
Theorem register_sequence_unique d0 calls_done calls_left d :
  records d0 = [] ->
  register_all (calls_done ++ calls_left) d0 = Some d ->
  exists d1,
    register_all calls_done d0 = Some d1
    /\ I1 (records d1) /\ I2 (records d1) /\ I3 (records d1)
    /\ forall ps, fst (list_platforms d1) = inr ps -> ps = records d1.
Proof.
  intros Hempty. rewrite register_all_app.
  destruct (register_all calls_done d0) as [d1|] eqn:H1; [|discriminate].
  intros _. exists d1. split; [reflexivity|].
  assert (Hu : unique_fields (records d1)).
  { apply (register_all_unique_from calls_done d0); [|assumption].
    rewrite Hempty. repeat split; constructor. }
  destruct Hu as (? & ? & ?). repeat split; try assumption.
  apply list_platforms_records.
Qed.

Lemma register_sequence_unique_witness :
  exists d1,
    register_all [(p1, WriteOk); (p2, WriteOk)] NoFile = Some d1
    /\ I1 (records d1) /\ I2 (records d1) /\ I3 (records d1)
    /\ forall ps, fst (list_platforms d1) = inr ps -> ps = records d1.
Proof.
  apply (register_sequence_unique NoFile [(p1, WriteOk); (p2, WriteOk)]
           [(p1, WriteOk)] (File [p1; p2])).
  - reflexivity.
  - vm_compute. reflexivity.
Defined.

(** ** Duplicate registration *)

Lemma filter_same_none candidate ps :
  ~ In (id candidate) (map id ps) ->
  List.filter (same_platform candidate) ps = [].
Proof.
  induction ps as [|q ps IH]; simpl; intros Hn; [reflexivity|].
  destruct (same_platform candidate q) eqn:Hq.
  - apply same_platform_spec in Hq as [Hid _]. elim Hn. now left.
  - apply IH. intros Hin. apply Hn. now right.
Qed.

Lemma filter_same_unique candidate r ps :
  I1 ps -> In r ps -> same_platform candidate r = true ->
  List.filter (same_platform candidate) ps = [r].
Proof.
  unfold I1. intros Hnd Hin Hs.
  assert (Hid : id candidate = id r) by (now apply same_platform_spec in Hs).
  induction ps as [|q ps IH]; simpl in *; [contradiction|].
  inversion Hnd as [|? ? Hq Hnd']; subst.
  destruct Hin as [->|Hin].
  - rewrite Hs. f_equal. apply filter_same_none. now rewrite Hid.
  - destruct (same_platform candidate q) eqn:Hq'.
    + exfalso. apply Hq.
      apply same_platform_spec in Hq' as [<- _]. rewrite Hid.
      now apply in_map.
    + now apply IH.
Qed.

(** C2, as stated, fails: the call returns the candidate it was given, not
    the stored record; the two differ when their groups differ. *)
Lemma register_duplicate_returns_candidate :
  get_platforms (File [p1_production])
  = (inr [p1_production], File [p1_production])
  /\ same_platform p1 p1_production = true
  /\ register_platform p1 WriteOk (File [p1_production])
     = (inr p1, File [p1_production])
  /\ group p1 <> group p1_production
  /\ fst (register_platform p1 WriteOk (File [p1_production]))
     <> inr p1_production.
Proof.
  repeat split; try reflexivity; vm_compute; discriminate.
Qed.

(** C2, amended. When the file holds a record [r] with the id, address and
    credential of the candidate, [register_platform] succeeds whatever the
    write would do, returns the candidate as submitted (equal to [r] on id,
    address and credential; its group is the candidate's own), and leaves the
    file unchanged; with unique ids, [r] is the only stored record with that
    triple. *)
Theorem register_duplicate_idempotent d ps candidate r w :
  get_platforms d = (inr ps, d) ->
  In r ps ->
  same_platform candidate r = true ->
  register_platform candidate w d = (inr candidate, d)
  /\ id candidate = id r
  /\ address candidate = address r
  /\ public_credentials candidate = public_credentials r
  /\ list_platforms d = (inr ps, d)
  /\ (I1 ps -> List.filter (same_platform candidate) ps = [r]).
Proof.
  intros Hload Hin Hs.
  rewrite (register_platform_cases _ _ _ _ Hload).
  rewrite (find_same_In _ _ _ Hin Hs).
  pose proof (proj1 (same_platform_spec _ _) Hs) as (Ei & Ea & Ec).
  repeat split; try assumption.
  intros Hu. now apply filter_same_unique.
Qed.

Lemma register_duplicate_idempotent_witness :
  register_platform p1 DumpFails (File [p1_production])
  = (inr p1, File [p1_production])
  /\ id p1 = id p1_production
  /\ address p1 = address p1_production
  /\ public_credentials p1 = public_credentials p1_production
  /\ list_platforms (File [p1_production])
     = (inr [p1_production], File [p1_production])
  /\ (I1 [p1_production] ->
      List.filter (same_platform p1) [p1_production] = [p1_production]).
Proof.
  apply (register_duplicate_idempotent (File [p1_production])
           [p1_production] p1 p1_production DumpFails).
  - reflexivity.
  - left. reflexivity.
  - reflexivity.
Defined.

(** ** Conflicts *)

(** C3. When no stored record has the id, address and credential of the
    candidate, [register_platform] looks for a stored record with the
    candidate's id, then for one with its address, then for one with its
    credential; the first search that finds one makes the call fail with
    status 400 and a detail naming that field, and the file is left as it
    was. *)
Theorem register_conflict_order d ps candidate w :
  get_platforms d = (inr ps, d) ->
  (forall r, In r ps -> same_platform candidate r = false) ->
  ((exists r, In r ps /\ id r = id candidate) ->
   register_platform candidate w d
   = (inl (HTTPException 400 (id_exists_detail candidate)), d))
  /\ (~ (exists r, In r ps /\ id r = id candidate) ->
      (exists r, In r ps /\ address r = address candidate) ->
      register_platform candidate w d
      = (inl (HTTPException 400 (address_exists_detail candidate)), d))
  /\ (~ (exists r, In r ps /\ id r = id candidate) ->
      ~ (exists r, In r ps /\ address r = address candidate) ->
      (exists r, In r ps
                 /\ public_credentials r = public_credentials candidate) ->
      register_platform candidate w d
      = (inl (HTTPException 400 (credential_exists_detail candidate)), d)).
Proof.
  intros Hload Hnone.
  rewrite (register_platform_cases _ _ _ _ Hload).
  apply find_same_None in Hnone. rewrite Hnone.
  repeat split.
  - intros H. apply (any_field_true id) in H. now rewrite H.
  - intros N1 H2. apply (any_field_false id) in N1.
    apply (any_field_true address) in H2. now rewrite N1, H2.
  - intros N1 N2 H3. apply (any_field_false id) in N1.
    apply (any_field_false address) in N2.
    apply (any_field_true public_credentials) in H3.
    now rewrite N1, N2, H3.
Qed.

Lemma register_conflict_order_witness :
  register_platform p2_same_address WriteOk (File [p1])
  = (inl (HTTPException 400 (address_exists_detail p2_same_address)),
     File [p1]).
Proof.
  destruct (register_conflict_order (File [p1]) [p1] p2_same_address WriteOk)
    as (_ & H & _).
  - reflexivity.
  - intros r [<-|[]]. reflexivity.
  - apply H.
    + intros (r & [<-|[]] & Hid). discriminate.
    + exists p1. split; [now left | reflexivity].
Defined.

(** ** A failing write *)

(** C8, as stated, fails: when the write fails after the file was opened,
    the file is left unparseable, and [list_platforms], which returned the
    stored records before the call, fails after it. *)
Lemma register_dump_failure_corrupts :
  list_platforms (File [p1]) = (inr [p1], File [p1])
  /\ register_platform p2 DumpFails (File [p1]) = (inl OSError, Corrupt)
  /\ list_platforms Corrupt = (inl JSONDecodeError, Corrupt).
Proof. repeat split; reflexivity. Qed.

(** C8, amended. When [register_platform] reaches its write and the write
    fails, the call fails with the error of the write.  If opening the file
    failed, the file is unchanged and [list_platforms] returns what it
    returned before; if the failure came after the file was opened, the file
    is left unparseable and [list_platforms] fails.  In both cases no later
    [list_platforms] returns the candidate. *)
Theorem register_write_failure d ps candidate w :
  get_platforms d = (inr ps, d) ->
  (forall r, In r ps ->
             id r <> id candidate
             /\ address r <> address candidate
             /\ public_credentials r <> public_credentials candidate) ->
  w <> WriteOk ->
  exists d',
    register_platform candidate w d = (inl OSError, d')
    /\ (w = OpenFails -> d' = d /\ list_platforms d' = (inr ps, d'))
    /\ (w = DumpFails ->
        d' = Corrupt /\ list_platforms d' = (inl JSONDecodeError, d'))
    /\ forall ps', fst (list_platforms d') = inr ps' -> ~ In candidate ps'.
Proof.
  intros Hload Hfree Hw.
  assert (Hnotin : ~ In candidate ps).
  { intros Hin. destruct (Hfree _ Hin) as [Hid _]. now apply Hid. }
  rewrite (register_platform_cases _ _ _ _ Hload).
  replace (find_same candidate ps) with (@None Platform).
  2:{ symmetry. apply find_same_None. intros r Hin.
      destruct (same_platform candidate r) eqn:Hs; [|reflexivity].
      apply same_platform_spec in Hs as [Hid _].
      destruct (Hfree _ Hin) as [N _]. now elim N. }
  replace (existsb (fun q => String.eqb (id q) (id candidate)) ps)
    with false.
  2:{ symmetry. apply any_field_false. intros (r & Hin & E).
      now destruct (Hfree _ Hin) as (N & _ & _). }
  replace (existsb (fun q => String.eqb (address q) (address candidate)) ps)
    with false.
  2:{ symmetry. apply any_field_false. intros (r & Hin & E).
      now destruct (Hfree _ Hin) as (_ & N & _). }
  replace (existsb (fun q => String.eqb (public_credentials q)
                               (public_credentials candidate)) ps)
    with false.
  2:{ symmetry. apply any_field_false. intros (r & Hin & E).
      now destruct (Hfree _ Hin) as (_ & _ & N). }
  destruct w; [now elim Hw| |]; simpl.
  - exists d. repeat split; try discriminate; try assumption.
    intros ps' H. apply list_platforms_records in H.
    apply get_platforms_inr in Hload as [_ ->]. now subst.
  - exists Corrupt. repeat split; discriminate.
Qed.

Lemma register_write_failure_witness :
  exists d',
    register_platform p2 OpenFails (File [p1]) = (inl OSError, d')
    /\ (OpenFails = OpenFails ->
        d' = File [p1] /\ list_platforms d' = (inr [p1], d'))
    /\ (OpenFails = DumpFails ->
        d' = Corrupt /\ list_platforms d' = (inl JSONDecodeError, d'))
    /\ forall ps', fst (list_platforms d') = inr ps' -> ~ In p2 ps'.
Proof.
  apply (register_write_failure (File [p1]) [p1] p2 OpenFails).
  - reflexivity.
  - intros r [<-|[]]. repeat split; discriminate.
  - discriminate.
Defined.

(** ** [update_platform] *)

Lemma first_index_None platform_id ps :
  first_index platform_id ps = None <->
  ~ exists r, In r ps /\ id r = platform_id.
Proof.
  induction ps as [|p ps IH]; simpl.
  - split; [intros _ (r & [] & _) | reflexivity].
  - destruct (String.eqb (id p) platform_id) eqn:E.
    + apply String.eqb_eq in E. split; [discriminate|].
      intros H. elim H. exists p. auto.
    + apply String.eqb_neq in E.
      destruct (first_index platform_id ps) as [k|]; simpl.
      * split; [discriminate|]. intros H.
        assert (N : ~ exists r, In r ps /\ id r = platform_id).
        { intros (r & Hin & Hr). apply H. exists r. auto. }
        apply IH in N. discriminate.
      * split; [|reflexivity]. intros _ (r & [<-|Hin] & Hr); [contradiction|].
        destruct IH as [IH _]. apply (IH eq_refl). eauto.
Qed.

Lemma first_index_Some platform_id (ps : list Platform) k :
  first_index platform_id ps = Some k ->
  (exists old, ps !! k = Some old /\ id old = platform_id)
  /\ forall j q, j < k -> ps !! j = Some q -> id q <> platform_id.
Proof.
  revert k. induction ps as [|p ps IH]; simpl; intros k; [discriminate|].
  destruct (String.eqb (id p) platform_id) eqn:E.
  - intros H; inversion H; subst. apply String.eqb_eq in E. split.
    + exists p. auto.
    + intros j q Hj. lia.
  - apply String.eqb_neq in E.
    destruct (first_index platform_id ps) as [k'|]; simpl; [|discriminate].
    intros H; inversion H; subst.
    destruct (IH k' eq_refl) as [Hold Hbefore]. split.
    + exact Hold.
    + intros [|j] q Hj Hq; simpl in Hq.
      * inversion Hq; subst. exact E.
      * apply (Hbefore j); [lia|assumption].
Qed.

Lemma update_loop_cases platform_id u w platforms rest i d :
  update_loop platform_id u w platforms i rest d =
  match first_index platform_id rest with
  | None => (inl (HTTPException 404 (not_found_detail platform_id)), d)
  | Some k =>
      if negb (String.eqb (id u) platform_id)
      then (inl (HTTPException 400 "Cannot change platform ID"), d)
      else
        match w with
        | WriteOk => (inr u, File (<[i + k := u]> platforms))
        | _ => (inl OSError, write_result (<[i + k := u]> platforms) w d)
        end
  end.
Proof.
  revert i. induction rest as [|p rest IH]; simpl; intros i; [reflexivity|].
  destruct (String.eqb (id p) platform_id).
  - rewrite Nat.add_0_r.
    destruct (negb (String.eqb (id u) platform_id)); [reflexivity|].
    destruct w; reflexivity.
  - rewrite IH. destruct (first_index platform_id rest) as [k|]; simpl;
      [|reflexivity].
    rewrite Nat.add_succ_r. reflexivity.
Qed.

Lemma update_platform_cases d ps platform_id u w :
  get_platforms d = (inr ps, d) ->
  update_platform platform_id u w d =
  match first_index platform_id ps with
  | None => (inl (HTTPException 404 (not_found_detail platform_id)), d)
  | Some k =>
      if negb (String.eqb (id u) platform_id)
      then (inl (HTTPException 400 "Cannot change platform ID"), d)
      else
        match w with
        | WriteOk => (inr u, File (<[k := u]> ps))
        | _ => (inl OSError, write_result (<[k := u]> ps) w d)
        end
  end.
Proof.
  intros Hload. unfold update_platform, bind. rewrite Hload.
  apply update_loop_cases.
Qed.

(** C6. When the file holds a record with the given id and the replacement
    carries another id, [update_platform] fails with status 400, "Cannot
    change platform ID", and leaves the file, hence every stored record, as
    it was; when the file holds no record with the given id, it fails with
    status 404, again without touching the file. *)
Theorem update_id_immutable d ps platform_id replacement w :
  get_platforms d = (inr ps, d) ->
  ((exists r, In r ps /\ id r = platform_id) ->
   id replacement <> platform_id ->
   update_platform platform_id replacement w d
   = (inl (HTTPException 400 "Cannot change platform ID"), d)
   /\ list_platforms d = (inr ps, d))
  /\ (~ (exists r, In r ps /\ id r = platform_id) ->
      update_platform platform_id replacement w d
      = (inl (HTTPException 404 (not_found_detail platform_id)), d)
      /\ list_platforms d = (inr ps, d)).
Proof.
  intros Hload. rewrite (update_platform_cases _ _ _ _ _ Hload). split.
  - intros Hex Hne. split; [|exact Hload].
    destruct (first_index platform_id ps) as [k|] eqn:Hk.
    + apply String.eqb_neq in Hne. now rewrite Hne.
    + apply first_index_None in Hk. contradiction.
  - intros Hno. split; [|exact Hload].
    apply first_index_None in Hno. now rewrite Hno.
Qed.

Lemma update_id_immutable_witness :
  update_platform "p1" p2 WriteOk (File [p1])
  = (inl (HTTPException 400 "Cannot change platform ID"), File [p1])
  /\ list_platforms (File [p1]) = (inr [p1], File [p1]).
Proof.
  apply (update_id_immutable (File [p1]) [p1] "p1" p2 WriteOk).
  - reflexivity.
  - exists p1. split; [now left | reflexivity].
  - discriminate.
Defined.

(** C10. A successful [update_platform] replaces the record at one position,
    the first that holds the given id, by the replacement, which carries
    that id; the number of records is preserved, every other position holds
    the record it held, and so every record with another id is unchanged and
    stays where it was in the order of [list_platforms]. *)
Theorem update_frame d ps platform_id replacement w u d' :
  get_platforms d = (inr ps, d) ->
  Platform_init replacement = inr replacement ->
  update_platform platform_id replacement w d = (inr u, d') ->
  u = replacement /\ id replacement = platform_id
  /\ exists ps',
      list_platforms d' = (inr ps', d')
      /\ length ps' = length ps
      /\ (exists i old,
            ps !! i = Some old /\ id old = platform_id
            /\ ps' !! i = Some replacement
            /\ (forall j q, j < i -> ps !! j = Some q -> id q <> platform_id)
            /\ forall j, j <> i -> ps' !! j = ps !! j)
      /\ forall j r,
          ps !! j = Some r -> id r <> platform_id -> ps' !! j = Some r.
Proof.
  intros Hload Hvalid. rewrite (update_platform_cases _ _ _ _ _ Hload).
  destruct (first_index platform_id ps) as [k|] eqn:Hk; [|discriminate].
  destruct (String.eqb (id replacement) platform_id) eqn:E; simpl;
    [|discriminate].
  apply String.eqb_eq in E.
  destruct w; try discriminate. intros H; inversion H; subst u d'.
  destruct (first_index_Some _ _ _ Hk) as [(old & Hold & Hid) Hbefore].
  split; [reflexivity|]. split; [assumption|].
  exists (<[k := replacement]> ps). split; [|split; [|split]].
  - apply get_platforms_File. apply Forall_insert; [|assumption].
    eapply get_platforms_valid; eassumption.
  - apply length_insert.
  - exists k, old. repeat split; try assumption.
    + apply list_lookup_insert_eq. eapply lookup_lt_Some; eassumption.
    + intros j Hj. apply list_lookup_insert_ne. congruence.
  - intros j r Hj Hr. rewrite list_lookup_insert_ne; [assumption|].
    intros ->. rewrite Hold in Hj. inversion Hj; subst. contradiction.
Qed.

Lemma update_frame_witness :
  p2_moved = p2_moved /\ id p2_moved = "p2"
  /\ exists ps',
      list_platforms (File [p1; p2_moved]) = (inr ps', File [p1; p2_moved])
      /\ length ps' = length [p1; p2]
      /\ (exists i old,
            [p1; p2] !! i = Some old /\ id old = "p2"
            /\ ps' !! i = Some p2_moved
            /\ (forall j q, j < i -> [p1; p2] !! j = Some q -> id q <> "p2")
            /\ forall j, j <> i -> ps' !! j = [p1; p2] !! j)
      /\ forall j r,
          [p1; p2] !! j = Some r -> id r <> "p2" -> ps' !! j = Some r.
Proof.
  apply (update_frame (File [p1; p2]) [p1; p2] "p2" p2_moved WriteOk
           p2_moved (File [p1; p2_moved])); reflexivity.
Defined.

(** ** [delete_platform] *)

Lemma delete_platform_cases d ps platform_id w :
  get_platforms d = (inr ps, d) ->
  delete_platform platform_id w d =
  let ps' :=
    List.filter (fun p => negb (String.eqb (id p) platform_id)) ps in
  if length ps' =? length ps
  then (inl (HTTPException 404 (not_found_detail platform_id)), d)
  else
    match w with
    | WriteOk => (inr (deleted_message platform_id), File ps')
    | _ => (inl OSError, write_result ps' w d)
    end.
Proof.
  intros Hload. unfold delete_platform, bind. rewrite Hload. simpl.
  destruct (_ =? _); [reflexivity|]. destruct w; reflexivity.
Qed.

Lemma filter_all {A} (f : A -> bool) (l : list A) :
  (forall x, In x l -> f x = true) -> List.filter f l = l.
Proof.
  induction l as [|a l IH]; simpl; intros H; [reflexivity|].
  rewrite (H a (or_introl eq_refl)). f_equal. apply IH. auto.
Qed.

Lemma find_by_id_None platform_id ps :
  (forall r, In r ps -> id r <> platform_id) ->
  find_by_id platform_id ps = None.
Proof.
  induction ps as [|p ps IH]; simpl; intros H; [reflexivity|].
  destruct (String.eqb (id p) platform_id) eqn:E.
  - apply String.eqb_eq in E. elim (H p); auto.
  - apply IH. auto.
Qed.

Lemma read_platform_absent d ps platform_id :
  get_platforms d = (inr ps, d) ->
  (forall r, In r ps -> id r <> platform_id) ->
  read_platform platform_id d
  = (inl (HTTPException 404 (not_found_detail platform_id)), d).
Proof.
  intros Hload H. unfold read_platform, bind. rewrite Hload.
  now rewrite find_by_id_None.
Qed.

(** C7. After a successful [delete_platform] of an id, [read_platform] of
    that id fails with status 404 and [list_platforms] returns a list with
    no record of that id; on a file with no record of that id,
    [delete_platform] fails with status 404 and leaves the file as it
    was. *)
Theorem delete_then_absent d platform_id w :
  (forall msg d',
     delete_platform platform_id w d = (inr msg, d') ->
     read_platform platform_id d'
     = (inl (HTTPException 404 (not_found_detail platform_id)), d')
     /\ exists ps',
         list_platforms d' = (inr ps', d')
         /\ forall r, In r ps' -> id r <> platform_id)
  /\ (forall ps,
        get_platforms d = (inr ps, d) ->
        (forall r, In r ps -> id r <> platform_id) ->
        delete_platform platform_id w d
        = (inl (HTTPException 404 (not_found_detail platform_id)), d)
        /\ list_platforms d = (inr ps, d)).
Proof.
  split.
  - intros msg d' H.
    destruct (get_platforms d) as [[e|ps] d0] eqn:Hload.
    { unfold delete_platform, bind in H. rewrite Hload in H. discriminate. }
    destruct (get_platforms_inr _ _ _ Hload) as [-> Hps].
    rewrite (delete_platform_cases _ _ _ _ Hload) in H. simpl in H.
    destruct (_ =? _); [discriminate|].
    destruct w; try discriminate. inversion H; subst msg d'. clear H.
    set (ps' := List.filter _ ps).
    assert (Hgone : forall r, In r ps' -> id r <> platform_id).
    { intros r Hin. apply filter_In in Hin as [_ Hr].
      apply negb_true_iff in Hr. now apply String.eqb_neq. }
    assert (Hload' : get_platforms (File ps') = (inr ps', File ps')).
    { apply get_platforms_File. apply List.Forall_forall. intros r Hin.
      apply filter_In in Hin as [Hin _].
      pose proof (get_platforms_valid _ _ Hload) as Hv.
      rewrite List.Forall_forall in Hv. now apply Hv. }
    split.
    + now apply (read_platform_absent _ ps').
    + exists ps'. split; assumption.
  - intros ps Hload Hno. split; [|exact Hload].
    rewrite (delete_platform_cases _ _ _ _ Hload). simpl.
    rewrite filter_all.
    + now rewrite Nat.eqb_refl.
    + intros r Hin. apply negb_true_iff. apply String.eqb_neq. auto.
Qed.

Lemma delete_then_absent_witness :
  (read_platform "p1" (File [p2])
   = (inl (HTTPException 404 (not_found_detail "p1")), File [p2])
   /\ exists ps',
       list_platforms (File [p2]) = (inr ps', File [p2])
       /\ forall r, In r ps' -> id r <> "p1")
  /\ (delete_platform "p1" WriteOk (File [p2])
      = (inl (HTTPException 404 (not_found_detail "p1")), File [p2])
      /\ list_platforms (File [p2]) = (inr [p2], File [p2])).
Proof.
  split.
  - apply (proj1 (delete_then_absent (File [p1; p2]) "p1" WriteOk)
             (deleted_message "p1") (File [p2])).
    reflexivity.
  - apply (proj2 (delete_then_absent (File [p2]) "p1" WriteOk) [p2]).
    + reflexivity.
    + intros r [<-|[]]. discriminate.
Defined.

(** ** Strings *)

Lemma append_cons a s t : String a s +:+ t = String a (s +:+ t).
Proof. reflexivity. Qed.

Lemma append_nil_r s : s +:+ EmptyString = s.
Proof.
  induction s as [|a s IH]; [reflexivity|]. rewrite append_cons. now f_equal.
Qed.

Lemma append_assoc s t u : (s +:+ t) +:+ u = s +:+ (t +:+ u).
Proof.
  induction s as [|a s IH]; [reflexivity|].
  rewrite !append_cons. now f_equal.
Qed.

Lemma length_append s t :
  String.length (s +:+ t) = String.length s + String.length t.
Proof.
  induction s as [|a s IH]; [reflexivity|].
  rewrite append_cons. simpl. now f_equal.
Qed.

Lemma all_chars_append ok s t :
  all_chars ok (s +:+ t) = all_chars ok s && all_chars ok t.
Proof.
  induction s as [|a s IH]; [reflexivity|].
  rewrite append_cons. simpl. rewrite IH. now rewrite andb_assoc.
Qed.

Lemma all_chars_weaken (ok ok' : ascii -> bool) s :
  (forall c, ok c = true -> ok' c = true) ->
  all_chars ok s = true -> all_chars ok' s = true.
Proof.
  intros Hw. induction s as [|a s IH]; simpl; [reflexivity|].
  rewrite !andb_true_iff. intros [Ha Hs]. auto.
Qed.

Lemma startswith_spec v p :
  startswith v p = true <-> exists rest, v = p +:+ rest.
Proof.
  revert v. induction p as [|a p IH]; intros v; simpl.
  - split; [intros _; now exists v | reflexivity].
  - destruct v as [|b v].
    + split; [discriminate|]. intros (rest & H). discriminate.
    + rewrite andb_true_iff, IH, Ascii.eqb_eq. split.
      * intros (-> & rest & ->). now exists rest.
      * intros (rest & H). rewrite append_cons in H. inversion H; subst.
        split; [reflexivity|]. now exists rest.
Qed.

(** ** The regular expression of [address_must_be_valid] *)

Lemma matches_spec r v :
  matches r v = true <-> exists c', In c' (run r (0, v)).
Proof.
  unfold matches. destruct (run r (0, v)) as [|c l].
  - split; [discriminate | intros (c' & [])].
  - split; [|reflexivity]. intros _. exists c. now left.
Qed.

Lemma run_seq r1 r2 c c' :
  In c' (run (Seq r1 r2) c) <-> exists m, In m (run r1 c) /\ In c' (run r2 m).
Proof. simpl. apply in_flat_map. Qed.

Lemma run_lit_fwd x c c' :
  In c' (run (Lit x) c) -> snd c = String x (snd c').
Proof.
  destruct c as [n s]. simpl. destruct s as [|a s]; [contradiction|].
  destruct (Ascii.eqb a x) eqn:E; [|contradiction].
  apply Ascii.eqb_eq in E. now intros [<-|[]]; subst.
Qed.

Lemma run_lit_bwd x n t : In (S n, t) (run (Lit x) (n, String x t)).
Proof. simpl. rewrite Ascii.eqb_refl. now left. Qed.

Lemma run_dollar_fwd c c' :
  In c' (run Dollar c) ->
  c' = c /\ (snd c = EmptyString \/ snd c = String newline EmptyString).
Proof.
  destruct c as [n s]. simpl. destruct s as [|a [|b s]].
  - intros [<-|[]]. auto.
  - destruct (Ascii.eqb a newline) eqn:E; [|contradiction].
    apply Ascii.eqb_eq in E. subst. intros [<-|[]]. auto.
  - contradiction.
Qed.

Lemma iter_digits_fwd hi lo c c' :
  In c' (iter_between (run Digit) lo hi c) ->
  exists ds,
    all_digits ds = true /\ lo <= String.length ds <= hi
    /\ snd c = ds +:+ snd c'.
Proof.
  revert lo c. induction hi as [|hi IH]; intros lo c H; simpl in H.
  - destruct (lo =? 0) eqn:E; [|contradiction]. apply Nat.eqb_eq in E.
    destruct H as [<-|[]]. exists EmptyString. repeat split; simpl; lia.
  - apply in_app_or in H as [H|H].
    + apply in_flat_map in H as (m & Hm & H).
      destruct c as [n s]. destruct s as [|a s]; [contradiction|].
      simpl in Hm. destruct (is_digit a) eqn:Ea; [|contradiction].
      destruct Hm as [<-|[]].
      apply IH in H as (ds & Hd & Hlen & Heq). simpl in Heq.
      exists (String a ds). unfold all_digits in *. simpl. rewrite Ea, Hd.
      split; [reflexivity|]. split; [lia|]. now rewrite Heq.
    + destruct (lo =? 0) eqn:E; [|contradiction]. apply Nat.eqb_eq in E.
      destruct H as [<-|[]]. exists EmptyString. repeat split; simpl; lia.
Qed.

Lemma iter_digits_bwd hi lo ds t n :
  all_digits ds = true -> lo <= String.length ds <= hi ->
  exists n', In (n', t) (iter_between (run Digit) lo hi (n, ds +:+ t)).
Proof.
  revert lo ds n. induction hi as [|hi IH]; intros lo ds n Hd Hlen.
  - destruct ds as [|a ds]; simpl in Hlen; [|lia].
    assert (lo = 0) as -> by lia. exists n. now left.
  - destruct ds as [|a ds].
    + assert (lo = 0) as -> by (simpl in Hlen; lia).
      exists n. simpl. apply in_or_app. right. now left.
    + unfold all_digits in Hd. simpl in Hd.
      apply andb_true_iff in Hd as [Ha Hd]. simpl in Hlen.
      destruct (IH (Nat.pred lo) ds (S n) Hd) as [n' Hn']; [lia|].
      exists n'. rewrite append_cons. simpl. rewrite Ha. simpl.
      apply in_or_app. left. rewrite app_nil_r. exact Hn'.
Qed.

Lemma plus_digits_fwd c c' :
  In c' (run (Plus Digit) c) ->
  exists ds, port_syntax ds /\ snd c = ds +:+ snd c'.
Proof.
  intros H. apply iter_digits_fwd in H as (ds & Hd & Hlen & Heq).
  exists ds. repeat split; [assumption|lia|assumption].
Qed.

Lemma plus_digits_bwd ds t n :
  port_syntax ds -> exists n', In (n', t) (run (Plus Digit) (n, ds +:+ t)).
Proof.
  intros [Hd Hlen]. apply iter_digits_bwd; [assumption|].
  simpl. rewrite length_append. lia.
Qed.

Lemma run_octet_fwd c c' :
  In c' (run (Repeat Digit 1 3) c) ->
  exists ds, octet_syntax ds /\ snd c = ds +:+ snd c'.
Proof.
  intros H. apply iter_digits_fwd in H as (ds & Hd & Hlen & Heq).
  exists ds. repeat split; [assumption|lia|lia|assumption].
Qed.

Lemma run_octet_bwd ds t n :
  octet_syntax ds ->
  exists n', In (n', t) (run (Repeat Digit 1 3) (n, ds +:+ t)).
Proof. intros [Hd Hlen]. now apply iter_digits_bwd. Qed.

Lemma run_port_fwd c c' :
  In c' (run (Opt (Seq (Lit ":") (Plus Digit))) c) ->
  snd c = snd c'
  \/ exists p, port_syntax p /\ snd c = ":" +:+ p +:+ snd c'.
Proof.
  intros H. change (In c' (run (Seq (Lit ":") (Plus Digit)) c ++ [c])) in H.
  apply in_app_or in H as [H|[<-|[]]]; [|now left].
  apply run_seq in H as (m & Hm & H). right.
  apply run_lit_fwd in Hm. apply plus_digits_fwd in H as (p & Hp & Heq).
  exists p. split; [assumption|]. rewrite Hm, Heq. reflexivity.
Qed.

Lemma ip_pattern_fwd v :
  matches ip_pattern v = true ->
  exists a b c d tail,
    octet_syntax a /\ octet_syntax b /\ octet_syntax c /\ octet_syntax d
    /\ v = a +:+ "." +:+ b +:+ "." +:+ c +:+ "." +:+ d +:+ tail
    /\ exists rest,
        (rest = EmptyString \/ rest = String newline EmptyString)
        /\ (tail = rest
            \/ exists p, port_syntax p /\ tail = ":" +:+ p +:+ rest).
Proof.
  intros H. apply matches_spec in H as (c' & H). unfold ip_pattern in H.
  apply run_seq in H as (m0 & H0 & H).
  apply run_seq in H as (m1 & H1 & H).
  apply run_seq in H as (m2 & H2 & H).
  apply run_seq in H as (m3 & H3 & H).
  apply run_seq in H as (m4 & H4 & H).
  apply run_seq in H as (m5 & H5 & H).
  apply run_seq in H as (m6 & H6 & H).
  apply run_seq in H as (m7 & H7 & H).
  apply run_seq in H as (m8 & H8 & H).
  simpl in H0. destruct H0 as [<-|[]].
  apply run_octet_fwd in H1 as (a & Ha & E1). simpl in E1.
  apply run_lit_fwd in H2.
  apply run_octet_fwd in H3 as (b & Hb & E3).
  apply run_lit_fwd in H4.
  apply run_octet_fwd in H5 as (c & Hc & E5).
  apply run_lit_fwd in H6.
  apply run_octet_fwd in H7 as (d & Hd & E7).
  apply run_port_fwd in H8.
  apply run_dollar_fwd in H as [-> Hrest].
  exists a, b, c, d, (snd m7). do 4 (split; [assumption|]). split.
  - rewrite E1, H2, E3, H4, E5, H6, E7. reflexivity.
  - exists (snd m8). split; [assumption|]. exact H8.
Qed.

Lemma ip_pattern_bwd a b c d tail rest :
  octet_syntax a -> octet_syntax b -> octet_syntax c -> octet_syntax d ->
  rest = EmptyString \/ rest = String newline EmptyString ->
  tail = rest \/ (exists p, port_syntax p /\ tail = ":" +:+ p +:+ rest) ->
  matches ip_pattern
    (a +:+ "." +:+ b +:+ "." +:+ c +:+ "." +:+ d +:+ tail) = true.
Proof.
  intros Ha Hb Hc Hd Hrest Htail. apply matches_spec. unfold ip_pattern.
  destruct (run_octet_bwd a ("." +:+ b +:+ "." +:+ c +:+ "." +:+ d +:+ tail)
              0 Ha) as [n1 H1].
  destruct (run_octet_bwd b ("." +:+ c +:+ "." +:+ d +:+ tail) (S n1) Hb)
    as [n3 H3].
  destruct (run_octet_bwd c ("." +:+ d +:+ tail) (S n3) Hc) as [n5 H5].
  destruct (run_octet_bwd d tail (S n5) Hd) as [n7 H7].
  assert (H8 : exists n8,
             In (n8, rest)
               (run (Opt (Seq (Lit ":") (Plus Digit))) (n7, tail))).
  { change (run (Opt (Seq (Lit ":") (Plus Digit))) (n7, tail))
      with (run (Seq (Lit ":") (Plus Digit)) (n7, tail) ++ [(n7, tail)]).
    destruct Htail as [->|(p & Hp & ->)].
    - exists n7. apply in_or_app. right. now left.
    - destruct (plus_digits_bwd p rest (S n7) Hp) as [n8 Hn8].
      exists n8. apply in_or_app. left. apply run_seq.
      exists (S n7, p +:+ rest). split; [apply run_lit_bwd | exact Hn8]. }
  destruct H8 as [n8 H8].
  exists (n8, rest).
  apply run_seq. eexists. split; [now left|].
  apply run_seq. eexists. split; [exact H1|].
  apply run_seq. eexists. split; [apply run_lit_bwd|].
  apply run_seq. eexists. split; [exact H3|].
  apply run_seq. eexists. split; [apply run_lit_bwd|].
  apply run_seq. eexists. split; [exact H5|].
  apply run_seq. eexists. split; [apply run_lit_bwd|].
  apply run_seq. eexists. split; [exact H7|].
  apply run_seq. eexists. split; [exact H8|].
  simpl. destruct Hrest as [->| ->]; simpl; now left.
Qed.

(** X1. What [address_must_be_valid] accepts: the addresses of the
    specification, and an IPv4 literal with its optional port followed by one
    newline. *)
Theorem address_ok_iff v :
  address_ok v = true <->
  spec_address v \/ exists w, ipv4_port_syntax w /\ v = w +:+ nl.
Proof.
  unfold address_ok. rewrite orb_true_iff. split.
  - intros [H|H].
    + apply existsb_exists in H as (scheme & Hin & H).
      apply startswith_spec in H as (rest & ->).
      left. right. exists scheme, rest. auto.
    + apply ip_pattern_fwd in H
        as (a & b & c & d & tail & Ha & Hb & Hc & Hd & -> & rest & Hrest & Ht).
      destruct Hrest as [->| ->].
      * left. left. exists a, b, c, d. do 4 (split; [assumption|]).
        destruct Ht as [->|(p & Hp & ->)].
        -- left. now rewrite append_nil_r.
        -- right. exists p. split; [assumption|]. now rewrite append_nil_r.
      * right. destruct Ht as [->|(p & Hp & ->)].
        -- exists (a +:+ "." +:+ b +:+ "." +:+ c +:+ "." +:+ d). split.
           ++ exists a, b, c, d. do 4 (split; [assumption|]). now left.
           ++ now rewrite !append_assoc.
        -- exists (a +:+ "." +:+ b +:+ "." +:+ c +:+ "." +:+ d +:+ ":" +:+ p).
           split.
           ++ exists a, b, c, d. do 4 (split; [assumption|]). right.
              exists p. auto.
           ++ now rewrite !append_assoc.
  - intros [[H|H]|H].
    + right. destruct H as (a & b & c & d & Ha & Hb & Hc & Hd & H).
      destruct H as [->|(p & Hp & ->)].
      * rewrite <- (append_nil_r d).
        apply (ip_pattern_bwd a b c d EmptyString EmptyString); auto.
      * rewrite <- (append_nil_r p).
        apply (ip_pattern_bwd a b c d (":" +:+ p +:+ EmptyString)
                 EmptyString); eauto.
    + left. destruct H as (scheme & rest & Hin & ->).
      apply existsb_exists. exists scheme. split; [assumption|].
      apply startswith_spec. now exists rest.
    + right. destruct H as (w & (a & b & c & d & Ha & Hb & Hc & Hd & H) & ->).
      destruct H as [->|(p & Hp & ->)]; rewrite !append_assoc.
      * apply (ip_pattern_bwd a b c d nl nl); auto.
      * apply (ip_pattern_bwd a b c d (":" +:+ p +:+ nl) nl); eauto.
Qed.

Lemma octet_chars s : octet_syntax s -> all_chars ip_char s = true.
Proof.
  intros [H _]. revert H. apply all_chars_weaken.
  intros c Hc. unfold ip_char. now rewrite Hc.
Qed.

Lemma ipv4_port_chars v : ipv4_port_syntax v -> all_chars ip_char v = true.
Proof.
  intros (a & b & c & d & Ha & Hb & Hc & Hd & H).
  apply octet_chars in Ha, Hb, Hc, Hd.
  destruct H as [->|(p & [Hp _] & ->)]; rewrite !all_chars_append.
  - now rewrite Ha, Hb, Hc, Hd.
  - rewrite Ha, Hb, Hc, Hd. simpl.
    revert Hp. apply all_chars_weaken.
    intros x Hx. unfold ip_char. now rewrite Hx.
Qed.

Lemma spec_address_chars v :
  spec_address v ->
  all_chars ip_char v = true \/ existsb (startswith v) uri_prefixes = true.
Proof.
  intros [H|(scheme & rest & Hin & ->)].
  - left. now apply ipv4_port_chars.
  - right. apply existsb_exists. exists scheme. split; [assumption|].
    apply startswith_spec. now exists rest.
Qed.

(** An address that [address_must_be_valid] refuses makes both routes that
    take a body fail with a validation error listing the address, before the
    file is read. *)
Lemma invalid_address_rejected b w d :
  address_ok (body_address b) = false ->
  exists fields,
    In "address" fields
    /\ post_platform b w d = (inl (ValidationError fields), d)
    /\ forall platform_id,
        put_platform platform_id b w d = (inl (ValidationError fields), d).
Proof.
  intros H. unfold post_platform, put_platform, bind, lift, Platform_of_body,
    Platform_init, address_must_be_valid. simpl. rewrite H. simpl.
  eexists. split; [|split; [reflexivity | intros; reflexivity]]. now left.
Qed.

(** C5. The validator accepts an address that is neither an IPv4 literal
    with an optional port nor a URI with one of the four schemes: the
    literal 1.2.3.4 followed by a newline, which [$] lets through.  A
    registration with that address is stored. *)
Theorem address_trailing_newline_accepted :
  address_must_be_valid ip_newline = inr ip_newline
  /\ ~ spec_address ip_newline
  /\ post_platform body_ip_newline WriteOk NoFile
     = (inr (mkPlatform "p3" ip_newline "0123456789abcdef" "default"),
        File [mkPlatform "p3" ip_newline "0123456789abcdef" "default"]).
Proof.
  split; [reflexivity|]. split; [|reflexivity].
  intros H. apply spec_address_chars in H as [H|H]; vm_compute in H;
    discriminate.
Qed.

(** ** Identifiers *)

(** No validator looks at the id: it never changes the outcome of the
    construction of a [Platform]. *)
Lemma Platform_init_ignores_id i a c g :
  Platform_init (mkPlatform i a c g) = inr (mkPlatform i a c g) <->
  address_ok a = true /\ 16 <= String.length c.
Proof.
  unfold Platform_init, address_must_be_valid, credential_must_be_valid.
  simpl. destruct (address_ok a); simpl;
    destruct (String.length c <? 16) eqn:E; simpl.
  - apply Nat.ltb_lt in E. split; [discriminate | lia].
  - apply Nat.ltb_ge in E. split; auto.
  - split; [discriminate | intros [? _]; discriminate].
  - split; [discriminate | intros [? _]; discriminate].
Qed.

(** C4. An id with characters outside letters, digits, underscore and
    hyphen, and the empty id, pass validation: the registration succeeds and
    the record is stored. *)
Theorem id_not_validated :
  spec_id_ok (body_id body_bad_id) = false
  /\ post_platform body_bad_id WriteOk NoFile
     = (inr (mkPlatform "bad id!" "tcp://10.0.0.1:5555" "0123456789abcdef"
               "default"),
        File [mkPlatform "bad id!" "tcp://10.0.0.1:5555" "0123456789abcdef"
                "default"])
  /\ spec_id_ok (body_id body_empty_id) = false
  /\ post_platform body_empty_id WriteOk NoFile
     = (inr (mkPlatform EmptyString "tcp://10.0.0.2:5555" "fedcba9876543210"
               "default"),
        File [mkPlatform EmptyString "tcp://10.0.0.2:5555" "fedcba9876543210"
                "default"]).
Proof. repeat split; reflexivity. Qed.

(** ** When the file cannot be loaded *)

Lemma update_platform_load_error d e d' platform_id u w :
  get_platforms d = (inl e, d') ->
  update_platform platform_id u w d = (inl e, d).
Proof.
  intros Hload. unfold update_platform, bind. rewrite Hload.
  now rewrite (get_platforms_state _ _ _ Hload).
Qed.

Lemma delete_platform_load_error d e d' platform_id w :
  get_platforms d = (inl e, d') ->
  delete_platform platform_id w d = (inl e, d).
Proof.
  intros Hload. unfold delete_platform, bind. rewrite Hload.
  now rewrite (get_platforms_state _ _ _ Hload).
Qed.

(** X3. A load that fails makes every handler fail with the same exception and
    leave the file as it is: only a missing file is tolerated, nothing repairs
    an unparseable file or one holding an invalid record. *)
Theorem load_failure_propagates d e d0 :
  get_platforms d = (inl e, d0) ->
  list_platforms d = (inl e, d)
  /\ (forall platform_id, read_platform platform_id d = (inl e, d))
  /\ (forall p w, register_platform p w d = (inl e, d))
  /\ (forall platform_id u w,
        update_platform platform_id u w d = (inl e, d))
  /\ (forall platform_id w, delete_platform platform_id w d = (inl e, d)).
Proof.
  intros Hload. pose proof (get_platforms_state _ _ _ Hload) as ->.
  repeat split; intros;
    unfold list_platforms, read_platform, register_platform, update_platform,
      delete_platform, bind;
    now rewrite Hload.
Qed.

Lemma load_failure_propagates_witness :
  list_platforms Corrupt = (inl JSONDecodeError, Corrupt)
  /\ (forall platform_id,
        read_platform platform_id Corrupt = (inl JSONDecodeError, Corrupt))
  /\ (forall p w,
        register_platform p w Corrupt = (inl JSONDecodeError, Corrupt))
  /\ (forall platform_id u w,
        update_platform platform_id u w Corrupt
        = (inl JSONDecodeError, Corrupt))
  /\ (forall platform_id w,
        delete_platform platform_id w Corrupt
        = (inl JSONDecodeError, Corrupt)).
Proof.
  apply (load_failure_propagates Corrupt JSONDecodeError Corrupt).
  reflexivity.
Defined.

(** X4. On a missing file the registry is empty: [list_platforms] returns the
    empty list, [read_platform], [update_platform] and [delete_platform]
    answer 404 without creating the file, and a registration whose write
    succeeds creates the file with that one record. *)
Theorem missing_file_is_empty_registry :
  list_platforms NoFile = (inr [], NoFile)
  /\ (forall platform_id,
        read_platform platform_id NoFile
        = (inl (HTTPException 404 (not_found_detail platform_id)), NoFile))
  /\ (forall platform_id u w,
        update_platform platform_id u w NoFile
        = (inl (HTTPException 404 (not_found_detail platform_id)), NoFile))
  /\ (forall platform_id w,
        delete_platform platform_id w NoFile
        = (inl (HTTPException 404 (not_found_detail platform_id)), NoFile))
  /\ (forall p, register_platform p WriteOk NoFile = (inr p, File [p])).
Proof. repeat split; intros; reflexivity. Qed.

(** ** What a handler can do to the file *)

Lemma write_effect_store {A} ps w d (v : A) :
  write_effect w d
    (match w with WriteOk => inr v | _ => inl OSError end)
    (match w with WriteOk => File ps | _ => write_result ps w d end).
Proof.
  destruct w; simpl.
  - right. left. eauto.
  - now left.
  - right. right. auto.
Qed.

(** X5. The file changes only through [_store_platforms]: after any of the
    three mutating handlers the file is as it was, unless the handler
    succeeded with a completed overwrite, or raised [OSError] from an
    overwrite that failed after the file was opened. In particular a 400 or a
    404 never comes with a changed file. *)
Theorem mutation_file_change d w :
  (forall p r d',
     register_platform p w d = (r, d') -> write_effect w d r d')
  /\ (forall platform_id u r d',
        update_platform platform_id u w d = (r, d') -> write_effect w d r d')
  /\ (forall platform_id r d',
        delete_platform platform_id w d = (r, d') -> write_effect w d r d').
Proof.
  destruct (get_platforms d) as [[e|ps] d0] eqn:Hload.
  { pose proof (fun p => register_platform_load_error _ _ _ p w Hload) as Hr.
    pose proof (fun i u => update_platform_load_error _ _ _ i u w Hload)
      as Hu.
    pose proof (fun i => delete_platform_load_error _ _ _ i w Hload) as Hd.
    repeat split; intros; rewrite ?Hr, ?Hu, ?Hd in *;
      match goal with H : (_, _) = (_, _) |- _ => inversion H end;
      now left. }
  destruct (get_platforms_inr _ _ _ Hload) as [-> _].
  repeat split.
  - intros p r d'. rewrite (register_platform_cases _ _ _ _ Hload).
    destruct (find_same p ps); [intros H; inversion H; now left|].
    repeat (destruct (existsb _ ps); [intros H; inversion H; now left|]).
    intros H.
    assert (E : (r, d') =
                (match w with WriteOk => inr p | _ => inl OSError end,
                 match w with
                 | WriteOk => File (ps ++ [p])
                 | _ => write_result (ps ++ [p]) w d
                 end)) by (rewrite <- H; now destruct w).
    inversion E. apply write_effect_store.
  - intros platform_id u r d'.
    rewrite (update_platform_cases _ _ _ _ _ Hload).
    destruct (first_index platform_id ps) as [k|];
      [|intros H; inversion H; now left].
    destruct (negb _); [intros H; inversion H; now left|].
    intros H.
    assert (E : (r, d') =
                (match w with WriteOk => inr u | _ => inl OSError end,
                 match w with
                 | WriteOk => File (<[k := u]> ps)
                 | _ => write_result (<[k := u]> ps) w d
                 end)) by (rewrite <- H; now destruct w).
    inversion E. apply write_effect_store.
  - intros platform_id r d'.
    rewrite (delete_platform_cases _ _ _ _ Hload). simpl.
    destruct (_ =? _); [intros H; inversion H; now left|].
    intros H.
    set (ps' := List.filter _ ps) in *.
    assert (E : (r, d') =
                (match w with
                 | WriteOk => inr (deleted_message platform_id)
                 | _ => inl OSError
                 end,
                 match w with
                 | WriteOk => File ps'
                 | _ => write_result ps' w d
                 end)) by (rewrite <- H; now destruct w).
    inversion E. apply write_effect_store.
Qed.

Lemma mutation_file_change_witness :
  write_effect DumpFails (File [p1])
    (inl OSError : exn + Platform) Corrupt.
Proof.
  apply (proj1 (mutation_file_change (File [p1]) DumpFails) p2).
  reflexivity.
Defined.

(** ** Registration, read back *)

Lemma register_platform_inr d p w r d' :
  register_platform p w d = (inr r, d') ->
  get_platforms d = (inr (records d), d) /\ r = p
  /\ ((find_same p (records d) = Some p /\ d' = d)
      \/ (w = WriteOk /\ d' = File (records d ++ [p])
          /\ forall q, In q (records d) ->
                       id q <> id p /\ address q <> address p
                       /\ public_credentials q <> public_credentials p)).
Proof.
  destruct (get_platforms d) as [[e|ps] d0] eqn:Hload.
  - rewrite (register_platform_load_error _ _ _ _ _ Hload). discriminate.
  - destruct (get_platforms_inr _ _ _ Hload) as [-> ->].
    rewrite (register_platform_cases _ _ _ _ Hload).
    destruct (find_same p (records d)) as [r0|] eqn:Hf.
    + apply find_same_Some in Hf as [-> _].
      intros H; inversion H; subst; auto.
    + destruct (existsb _ (records d)) eqn:E1; [discriminate|].
      destruct (existsb (fun q => String.eqb (address q) _) (records d))
        eqn:E2; [discriminate|].
      destruct (existsb (fun q => String.eqb (public_credentials q) _)
                  (records d)) eqn:E3; [discriminate|].
      destruct w; try discriminate.
      intros H; inversion H; subst.
      split; [reflexivity|]. split; [reflexivity|]. right.
      split; [reflexivity|]. split; [reflexivity|].
      intros q Hin. repeat split; intros E.
      * apply (proj1 (any_field_false id _ _) E1). eauto.
      * apply (proj1 (any_field_false address _ _) E2). eauto.
      * apply (proj1 (any_field_false public_credentials _ _) E3). eauto.
Qed.

Lemma find_by_id_first platform_id ps r :
  find_by_id platform_id ps = Some r -> In r ps /\ id r = platform_id.
Proof.
  induction ps as [|p ps IH]; simpl; [discriminate|].
  destruct (String.eqb (id p) platform_id) eqn:E.
  - intros H; inversion H; subst. apply String.eqb_eq in E. auto.
  - intros H. destruct (IH H). auto.
Qed.

Lemma find_by_id_unique ps r :
  I1 ps -> In r ps -> find_by_id (id r) ps = Some r.
Proof.
  unfold I1. induction ps as [|p ps IH]; simpl; intros Hnd Hin;
    [contradiction|].
  inversion Hnd as [|? ? Hp Hnd']; subst.
  destruct Hin as [->|Hin]; [now rewrite String.eqb_refl|].
  destruct (String.eqb (id p) (id r)) eqn:E; [|now apply IH].
  apply String.eqb_eq in E. elim Hp. rewrite E. now apply in_map.
Qed.

Lemma find_by_id_snoc platform_id ps p :
  (forall q, In q ps -> id q <> platform_id) -> id p = platform_id ->
  find_by_id platform_id (ps ++ [p]) = Some p.
Proof.
  intros Hno Hp. induction ps as [|q ps IH]; simpl.
  - apply String.eqb_eq in Hp. now rewrite Hp.
  - destruct (String.eqb (id q) platform_id) eqn:E.
    + apply String.eqb_eq in E. elim (Hno q); auto. now left.
    + apply IH. intros q' Hin. apply Hno. now right.
Qed.

Lemma read_platform_found d ps platform_id r :
  get_platforms d = (inr ps, d) ->
  find_by_id platform_id ps = Some r ->
  read_platform platform_id d = (inr r, d).
Proof.
  intros Hload Hf. unfold read_platform, bind. now rewrite Hload, Hf.
Qed.

Lemma valid_snoc ps p :
  List.Forall valid ps -> valid p -> List.Forall valid (ps ++ [p]).
Proof.
  intros Hps Hp. apply List.Forall_app. split; [assumption|].
  constructor; [assumption|constructor].
Qed.

(** X6. When no stored record has the id, the address or the credential of the
    candidate and the write succeeds, [register_platform] returns the
    candidate and the file holds the former records followed by the
    candidate. *)
Theorem register_fresh_appends d ps p :
  get_platforms d = (inr ps, d) ->
  (forall q, In q ps ->
             id q <> id p /\ address q <> address p
             /\ public_credentials q <> public_credentials p) ->
  register_platform p WriteOk d = (inr p, File (ps ++ [p])).
Proof.
  intros Hload Hfree.
  rewrite (register_platform_cases _ _ _ _ Hload).
  replace (find_same p ps) with (@None Platform).
  2:{ symmetry. apply find_same_None. intros q Hin.
      destruct (same_platform p q) eqn:Hs; [|reflexivity].
      apply same_platform_spec in Hs as [Hid _].
      destruct (Hfree _ Hin) as [N _]. now elim N. }
  replace (existsb (fun q => String.eqb (id q) (id p)) ps) with false.
  2:{ symmetry. apply any_field_false. intros (q & Hin & E).
      now destruct (Hfree _ Hin) as (N & _ & _). }
  replace (existsb (fun q => String.eqb (address q) (address p)) ps)
    with false.
  2:{ symmetry. apply any_field_false. intros (q & Hin & E).
      now destruct (Hfree _ Hin) as (_ & N & _). }
  replace (existsb (fun q => String.eqb (public_credentials q)
                               (public_credentials p)) ps) with false.
  2:{ symmetry. apply any_field_false. intros (q & Hin & E).
      now destruct (Hfree _ Hin) as (_ & _ & N). }
  reflexivity.
Qed.

Lemma register_fresh_appends_witness :
  register_platform p2 WriteOk (File [p1]) = (inr p2, File ([p1] ++ [p2])).
Proof.
  apply (register_fresh_appends (File [p1]) [p1] p2).
  - reflexivity.
  - intros q [<-|[]]. repeat split; discriminate.
Defined.

(** X7. After a successful registration of a valid candidate on a registry
    with unique ids, [read_platform] of the candidate's id succeeds and
    returns a record with the candidate's id, address and credential; when the
    registration changed the file, it returns the candidate itself, field for
    field. *)
Theorem register_then_read d p w r d' :
  valid p ->
  I1 (records d) ->
  register_platform p w d = (inr r, d') ->
  exists q,
    read_platform (id p) d' = (inr q, d')
    /\ same_platform p q = true
    /\ (d' <> d -> q = p).
Proof.
  intros Hv Hu H.
  apply register_platform_inr in H
    as (Hload & -> & [[Hf ->]|(-> & -> & Hfree)]).
  - apply find_same_Some in Hf as (_ & q & Hin & Hs).
    exists q. split; [|split; [assumption|congruence]].
    apply (read_platform_found _ (records d)); [assumption|].
    apply same_platform_spec in Hs as (-> & _). now apply find_by_id_unique.
  - exists p. split; [|split; [|reflexivity]].
    + apply (read_platform_found _ (records d ++ [p])).
      * apply get_platforms_File. apply valid_snoc; [|assumption].
        eapply get_platforms_valid; eassumption.
      * apply find_by_id_snoc; [|reflexivity].
        intros q Hin. now destruct (Hfree q Hin).
    + apply same_platform_spec. auto.
Qed.

Lemma register_then_read_witness :
  exists q,
    read_platform (id p2) (File [p1; p2]) = (inr q, File [p1; p2])
    /\ same_platform p2 q = true
    /\ (File [p1; p2] <> File [p1] -> q = p2).
Proof.
  apply (register_then_read (File [p1]) p2 WriteOk p2 (File [p1; p2]));
    [reflexivity | | reflexivity].
  repeat constructor. intros [].
Defined.

(** X8. Registering a valid candidate again right after a successful
    registration succeeds, returns the candidate, and leaves the file
    untouched, whatever a write would do. *)
Theorem register_twice d p w w' r d' :
  valid p ->
  register_platform p w d = (inr r, d') ->
  register_platform p w' d' = (inr p, d').
Proof.
  intros Hv H.
  apply register_platform_inr in H
    as (Hload & -> & [[Hf ->]|(-> & -> & Hfree)]).
  - rewrite (register_platform_cases _ _ _ _ Hload). now rewrite Hf.
  - assert (Hload' : get_platforms (File (records d ++ [p]))
                     = (inr (records d ++ [p]), File (records d ++ [p]))).
    { apply get_platforms_File. apply valid_snoc; [|assumption].
      eapply get_platforms_valid; eassumption. }
    rewrite (register_platform_cases _ _ _ _ Hload').
    rewrite (find_same_In p _ p); [reflexivity| |].
    + apply in_or_app. right. now left.
    + apply same_platform_spec. auto.
Qed.

Lemma register_twice_witness :
  register_platform p1 DumpFails (File [p1]) = (inr p1, File [p1]).
Proof.
  apply (register_twice NoFile p1 WriteOk DumpFails p1 (File [p1]));
    reflexivity.
Defined.

(** X9. A run of successful registrations never removes, changes or reorders a
    stored record: the records after the run are those before it, followed by
    newly stored ones, which are candidates of the run in the order of the
    calls. *)
Theorem register_all_appends calls d d' :
  register_all calls d = Some d' ->
  exists added,
    records d' = records d ++ added
    /\ sublist added (map fst calls).
Proof.
  revert d. induction calls as [|[p w] calls IH]; simpl; intros d H.
  - inversion H; subst. exists []. rewrite app_nil_r.
    split; [reflexivity | constructor].
  - destruct (register_platform p w d) as [[e|r] d1] eqn:Hr; [discriminate|].
    destruct (IH _ H) as (added & Hrec & Hsub).
    apply register_platform_inr in Hr as (_ & _ & [[_ ->]|(_ & -> & _)]).
    + exists added. split; [assumption|]. now apply sublist_cons.
    + exists (p :: added). simpl in Hrec. rewrite Hrec, <- app_assoc.
      split; [reflexivity|]. now apply sublist_skip.
Qed.

Lemma register_all_appends_witness :
  exists added,
    records (File [p1; p2]) = records NoFile ++ added
    /\ sublist added (map fst [(p1, WriteOk); (p1, OpenFails); (p2, WriteOk)]).
Proof.
  apply (register_all_appends [(p1, WriteOk); (p1, OpenFails); (p2, WriteOk)]
           NoFile (File [p1; p2])).
  vm_compute. reflexivity.
Defined.

(** ** Lookup *)

Lemma find_by_id_first_index platform_id (ps : list Platform) :
  find_by_id platform_id ps
  = match first_index platform_id ps with
    | Some k => ps !! k
    | None => None
    end.
Proof.
  induction ps as [|p ps IH]; simpl; [reflexivity|].
  destruct (String.eqb (id p) platform_id); [reflexivity|].
  rewrite IH. now destruct (first_index platform_id ps).
Qed.

(** X11. [read_platform] returns the first stored record with the requested
    id, in the order of the file, when there is one, and answers 404 when
    there is none; with unique ids every stored record is what [read_platform]
    returns for its id. *)
Theorem read_platform_finds d ps platform_id :
  get_platforms d = (inr ps, d) ->
  ((exists q, In q ps /\ id q = platform_id) ->
   exists k r,
     read_platform platform_id d = (inr r, d)
     /\ ps !! k = Some r /\ id r = platform_id
     /\ forall j q, j < k -> ps !! j = Some q -> id q <> platform_id)
  /\ (~ (exists q, In q ps /\ id q = platform_id) ->
      read_platform platform_id d
      = (inl (HTTPException 404 (not_found_detail platform_id)), d))
  /\ (I1 ps -> forall r, In r ps -> read_platform (id r) d = (inr r, d)).
Proof.
  intros Hload. repeat split.
  - intros Hex.
    destruct (first_index platform_id ps) as [k|] eqn:Hk.
    + destruct (first_index_Some _ _ _ Hk) as [(r & Hr & Hid) Hbefore].
      exists k, r. repeat split; try assumption.
      apply (read_platform_found _ ps); [assumption|].
      now rewrite find_by_id_first_index, Hk.
    + apply first_index_None in Hk. contradiction.
  - intros Hno. apply (read_platform_absent _ ps); [assumption|].
    intros r Hin E. apply Hno. eauto.
  - intros Hu r Hin. apply (read_platform_found _ ps); [assumption|].
    now apply find_by_id_unique.
Qed.

Lemma read_platform_finds_witness :
  exists k r,
    read_platform "p2" (File [p1; p2]) = (inr r, File [p1; p2])
    /\ [p1; p2] !! k = Some r /\ id r = "p2"
    /\ forall j q, j < k -> [p1; p2] !! j = Some q -> id q <> "p2".
Proof.
  apply (proj1 (read_platform_finds (File [p1; p2]) [p1; p2] "p2" eq_refl)).
  exists p2. split; [right; now left | reflexivity].
Defined.

(** ** Update, read back *)

Lemma first_index_insert platform_id u (ps : list Platform) k :
  first_index platform_id ps = Some k -> id u = platform_id ->
  first_index platform_id (<[k := u]> ps) = Some k
  /\ map id (<[k := u]> ps) = map id ps.
Proof.
  intros Hk Hu. revert k Hk.
  induction ps as [|p ps IH]; simpl; intros k; [discriminate|].
  destruct (String.eqb (id p) platform_id) eqn:E.
  - intros H; inversion H; subst k. simpl.
    apply String.eqb_eq in E. rewrite Hu, String.eqb_refl, E. auto.
  - destruct (first_index platform_id ps) as [k'|]; simpl; [|discriminate].
    intros H; inversion H; subst k. simpl. rewrite E.
    destruct (IH k' eq_refl) as [-> ->]. auto.
Qed.

Lemma update_platform_inr d platform_id u w r d' :
  update_platform platform_id u w d = (inr r, d') ->
  get_platforms d = (inr (records d), d) /\ r = u /\ id u = platform_id
  /\ w = WriteOk
  /\ exists k,
      first_index platform_id (records d) = Some k
      /\ d' = File (<[k := u]> (records d)).
Proof.
  destruct (get_platforms d) as [[e|ps] d0] eqn:Hload.
  - rewrite (update_platform_load_error _ _ _ _ _ _ Hload). discriminate.
  - destruct (get_platforms_inr _ _ _ Hload) as [-> ->].
    rewrite (update_platform_cases _ _ _ _ _ Hload).
    destruct (first_index platform_id (records d)) as [k|]; [|discriminate].
    destruct (String.eqb (id u) platform_id) eqn:E; simpl; [|discriminate].
    apply String.eqb_eq in E. destruct w; try discriminate.
    intros H; inversion H; subst. eauto 10.
Qed.

(** X12. After a successful update with a valid replacement, [read_platform]
    of the id returns the replacement, field for field. *)
Theorem update_then_read d platform_id u w r d' :
  valid u ->
  update_platform platform_id u w d = (inr r, d') ->
  read_platform platform_id d' = (inr u, d').
Proof.
  intros Hv H.
  apply update_platform_inr in H as (Hload & _ & Hid & _ & k & Hk & ->).
  destruct (first_index_insert _ u _ _ Hk Hid) as [Hk' _].
  apply (read_platform_found _ (<[k := u]> (records d))).
  - apply get_platforms_File. apply Forall_insert; [|assumption].
    eapply get_platforms_valid; eassumption.
  - rewrite find_by_id_first_index, Hk'.
    apply list_lookup_insert_eq.
    destruct (first_index_Some _ _ _ Hk) as [(old & Hold & _) _].
    eapply lookup_lt_Some; eassumption.
Qed.

Lemma update_then_read_witness :
  read_platform "p2" (File [p1; p2_moved])
  = (inr p2_moved, File [p1; p2_moved]).
Proof.
  apply (update_then_read (File [p1; p2]) "p2" p2_moved WriteOk p2_moved
           (File [p1; p2_moved])); reflexivity.
Defined.

(** X13. A successful update leaves the sequence of stored ids as it was, so
    it keeps ids unique when they were. *)
Theorem update_preserves_ids d platform_id u w r d' :
  update_platform platform_id u w d = (inr r, d') ->
  map id (records d') = map id (records d)
  /\ (I1 (records d) -> I1 (records d')).
Proof.
  intros H.
  apply update_platform_inr in H as (_ & _ & Hid & _ & k & Hk & ->).
  destruct (first_index_insert _ u _ _ Hk Hid) as [_ Hmap].
  simpl. unfold I1. rewrite Hmap. auto.
Qed.

Lemma update_preserves_ids_witness :
  map id (records (File [p1; p2_moved])) = map id (records (File [p1; p2]))
  /\ (I1 (records (File [p1; p2])) -> I1 (records (File [p1; p2_moved]))).
Proof.
  apply (update_preserves_ids (File [p1; p2]) "p2" p2_moved WriteOk p2_moved
           (File [p1; p2_moved])); reflexivity.
Defined.

Lemma first_index_unique platform_id (ps : list Platform) i old :
  I1 ps -> ps !! i = Some old -> id old = platform_id ->
  first_index platform_id ps = Some i.
Proof.
  intros Hu Hi Hid.
  destruct (first_index platform_id ps) as [k|] eqn:Hk.
  - destruct (first_index_Some _ _ _ Hk) as [(old' & Hk' & Hid') _].
    f_equal. apply NoDup_ListNoDup in Hu.
    apply (NoDup_lookup (map id ps) k i platform_id Hu).
    + change (map id ps) with (id <$> ps).
      now rewrite list_lookup_fmap, Hk', <- Hid'.
    + change (map id ps) with (id <$> ps).
      now rewrite list_lookup_fmap, Hi, <- Hid.
  - apply first_index_None in Hk. elim Hk. exists old.
    split; [|assumption]. apply list_elem_of_In.
    eapply list_elem_of_lookup_2; eassumption.
Qed.

Section UpdateField.
Variable f : Platform -> string.

Lemma insert_duplicates_field (ps : list Platform) i j u other :
  i <> j -> i < length ps -> ps !! j = Some other -> f u = f other ->
  ~ List.NoDup (map f (<[i := u]> ps)).
Proof.
  intros Hij Hi Hj Hf Hnd. apply NoDup_ListNoDup in Hnd. apply Hij.
  apply (NoDup_lookup (map f (<[i := u]> ps)) i j (f u) Hnd).
  - change (map f (<[i := u]> ps)) with (f <$> <[i := u]> ps).
    now rewrite list_lookup_fmap, list_lookup_insert_eq.
  - change (map f (<[i := u]> ps)) with (f <$> <[i := u]> ps).
    rewrite list_lookup_fmap, list_lookup_insert_ne by assumption.
    now rewrite Hj, Hf.
Qed.
End UpdateField.

(** X14. [update_platform] compares the replacement with no other record: with
    unique ids, a replacement that carries the address (or the credential) of
    another stored record is stored all the same, and the addresses (or the
    credentials) of the stored records are then no longer unique. *)
Theorem update_skips_uniqueness d ps platform_id u i j old other :
  get_platforms d = (inr ps, d) ->
  I1 ps ->
  ps !! i = Some old -> id old = platform_id ->
  ps !! j = Some other -> i <> j ->
  id u = platform_id ->
  update_platform platform_id u WriteOk d = (inr u, File (<[i := u]> ps))
  /\ (address u = address other -> ~ I2 (<[i := u]> ps))
  /\ (public_credentials u = public_credentials other ->
      ~ I3 (<[i := u]> ps)).
Proof.
  intros Hload Hu Hi Hold Hj Hij Hid.
  rewrite (update_platform_cases _ _ _ _ _ Hload).
  rewrite (first_index_unique _ _ _ _ Hu Hi Hold).
  apply String.eqb_eq in Hid. rewrite Hid. simpl.
  assert (Hlt : i < length ps) by (eapply lookup_lt_Some; eassumption).
  repeat split.
  - intros E. now apply (insert_duplicates_field address ps i j u other).
  - intros E.
    now apply (insert_duplicates_field public_credentials ps i j u other).
Qed.

Lemma update_skips_uniqueness_witness :
  update_platform "p2" p2_same_address WriteOk (File [p1; p2])
  = (inr p2_same_address, File (<[1 := p2_same_address]> [p1; p2]))
  /\ (address p2_same_address = address p1 ->
      ~ I2 (<[1 := p2_same_address]> [p1; p2]))
  /\ (public_credentials p2_same_address = public_credentials p1 ->
      ~ I3 (<[1 := p2_same_address]> [p1; p2])).
Proof.
  apply (update_skips_uniqueness (File [p1; p2]) [p1; p2] "p2"
           p2_same_address 1 0 p2 p1); try reflexivity.
  - unfold I1. simpl.
    constructor; [intros [H|[]]; discriminate|].
    constructor; [intros []|constructor].
  - discriminate.
Defined.

(** ** Deletion *)

Lemma delete_platform_inr d platform_id w msg d' :
  delete_platform platform_id w d = (inr msg, d') ->
  get_platforms d = (inr (records d), d) /\ w = WriteOk
  /\ msg = deleted_message platform_id
  /\ d' = File (List.filter
                  (fun p => negb (String.eqb (id p) platform_id)) (records d))
  /\ length (records d') < length (records d).
Proof.
  destruct (get_platforms d) as [[e|ps] d0] eqn:Hload.
  - rewrite (delete_platform_load_error _ _ _ _ _ Hload). discriminate.
  - destruct (get_platforms_inr _ _ _ Hload) as [-> ->].
    rewrite (delete_platform_cases _ _ _ _ Hload). simpl.
    destruct (_ =? _) eqn:E; [discriminate|]. apply Nat.eqb_neq in E.
    destruct w; try discriminate. intros H; inversion H; subst.
    repeat split; try reflexivity. simpl.
    pose proof (List.filter_length_le
                  (fun p => negb (String.eqb (id p) platform_id))
                  (records d)).
    lia.
Qed.

Section FilterField.
Variable f : Platform -> string.

Lemma NoDup_field_filter (g : Platform -> bool) ps :
  List.NoDup (map f ps) -> List.NoDup (map f (List.filter g ps)).
Proof.
  induction ps as [|p ps IH]; simpl; intros Hnd; [constructor|].
  inversion Hnd as [|? ? Hp Hnd']; subst.
  destruct (g p); simpl; [|now apply IH].
  constructor; [|now apply IH].
  intros Hin. apply Hp. apply in_map_iff in Hin as (q & Hq & Hin).
  apply filter_In in Hin as [Hin _]. rewrite <- Hq. now apply in_map.
Qed.
End FilterField.

(** X15. A successful deletion removes every record with the given id and
    nothing else: the other records stay, in their order; there is at least
    one record less; and ids, addresses and credentials that were unique stay
    unique. *)
Theorem delete_removes_exactly d platform_id w msg d' :
  delete_platform platform_id w d = (inr msg, d') ->
  records d'
  = List.filter (fun p => negb (String.eqb (id p) platform_id)) (records d)
  /\ length (records d') < length (records d)
  /\ (forall r, In r (records d') <-> In r (records d) /\ id r <> platform_id)
  /\ (unique_fields (records d) -> unique_fields (records d')).
Proof.
  intros H. apply delete_platform_inr in H as (_ & _ & _ & -> & Hlen).
  split; [reflexivity|]. split; [assumption|]. split.
  - intros r. simpl. rewrite filter_In, negb_true_iff, String.eqb_neq.
    reflexivity.
  - intros (H1 & H2 & H3). simpl.
    repeat split; apply NoDup_field_filter; assumption.
Qed.

Lemma delete_removes_exactly_witness :
  records (File [p2])
  = List.filter (fun p => negb (String.eqb (id p) "p1"))
      (records (File [p1; p2]))
  /\ length (records (File [p2])) < length (records (File [p1; p2]))
  /\ (forall r, In r (records (File [p2])) <->
                In r (records (File [p1; p2])) /\ id r <> "p1")
  /\ (unique_fields (records (File [p1; p2])) ->
      unique_fields (records (File [p2]))).
Proof.
  apply (delete_removes_exactly (File [p1; p2]) "p1" WriteOk
           (deleted_message "p1") (File [p2])).
  reflexivity.
Defined.

(** ** Validation at the routes *)

(** X2. Building a [Platform] succeeds exactly when the address passes its
    validator and the credential has 16 characters or more; otherwise it
    raises a validation error that lists the address if and only if the
    address was refused, and the credential if and only if it is too short.
    Neither the id nor the group plays a part. *)
Theorem Platform_init_outcome p :
  (Platform_init p = inr p <->
   address_ok (address p) = true /\ 16 <= String.length (public_credentials p))
  /\ forall e,
      Platform_init p = inl e ->
      exists fields,
        e = ValidationError fields /\ fields <> []
        /\ (In "address" fields <-> address_ok (address p) = false)
        /\ (In "public_credentials" fields <->
            String.length (public_credentials p) < 16).
Proof.
  unfold Platform_init, address_must_be_valid, credential_must_be_valid.
  destruct (address_ok (address p)); simpl;
    destruct (String.length (public_credentials p) <? 16) eqn:E; simpl;
    (apply Nat.ltb_lt in E || apply Nat.ltb_ge in E).
  all: split; [split; intros H; try discriminate H|].
  all: try (intros e He; inversion He; subst e; eexists;
            split; [reflexivity|]; split; [discriminate|]).
  all: try (destruct H; (discriminate || lia)).
  all: try (split; [reflexivity | assumption]).
  all: try reflexivity.
  all: simpl; intuition (try discriminate; try lia).
Qed.

Lemma Platform_of_body_inr b p :
  Platform_of_body b = inr p ->
  valid p
  /\ p = mkPlatform (body_id b) (body_address b) (body_public_credentials b)
           (default DEFAULT_GROUP (body_group b)).
Proof.
  unfold Platform_of_body, valid. intros H.
  pose proof (Platform_init_inr _ _ H) as ->. auto.
Qed.

(** X16. A successful POST returns the record made of the fields of the body,
    with the group "default" when the body has none, and that record has
    passed both validators. *)
Theorem post_platform_returns_body b w d r d' :
  post_platform b w d = (inr r, d') ->
  r = mkPlatform (body_id b) (body_address b) (body_public_credentials b)
        (match body_group b with Some g => g | None => "default" end)
  /\ address_ok (body_address b) = true
  /\ 16 <= String.length (body_public_credentials b).
Proof.
  unfold post_platform, bind, lift.
  destruct (Platform_of_body b) as [e|p] eqn:Hb; [discriminate|].
  apply Platform_of_body_inr in Hb as [Hv ->]. intros H.
  apply register_platform_inr in H as (_ & -> & _).
  split; [now destruct (body_group b)|].
  now apply Platform_init_ignores_id in Hv.
Qed.

Lemma post_platform_returns_body_witness :
  mkPlatform "bad id!" "tcp://10.0.0.1:5555" "0123456789abcdef" "default"
  = mkPlatform (body_id body_bad_id) (body_address body_bad_id)
      (body_public_credentials body_bad_id)
      (match body_group body_bad_id with Some g => g | None => "default" end)
  /\ address_ok (body_address body_bad_id) = true
  /\ 16 <= String.length (body_public_credentials body_bad_id).
Proof.
  apply (post_platform_returns_body body_bad_id WriteOk NoFile _
           (File [mkPlatform "bad id!" "tcp://10.0.0.1:5555"
                    "0123456789abcdef" "default"])).
  reflexivity.
Defined.

(** X17. Whatever succeeds through the routes leaves a file that can be
    loaded: after a successful POST, PUT or DELETE, [list_platforms] succeeds
    and returns the stored records. *)
Theorem routes_keep_file_loadable d w :
  (forall b r d',
     post_platform b w d = (inr r, d') ->
     list_platforms d' = (inr (records d'), d'))
  /\ (forall platform_id b r d',
        put_platform platform_id b w d = (inr r, d') ->
        list_platforms d' = (inr (records d'), d'))
  /\ (forall platform_id msg d',
        delete_platform platform_id w d = (inr msg, d') ->
        list_platforms d' = (inr (records d'), d')).
Proof.
  repeat split.
  - intros b r d'. unfold post_platform, bind, lift.
    destruct (Platform_of_body b) as [e|p] eqn:Hb; [discriminate|].
    apply Platform_of_body_inr in Hb as [Hv _]. intros H.
    apply register_platform_inr in H
      as (Hload & _ & [[_ ->]|(_ & -> & _)]); [assumption|].
    apply get_platforms_File. apply valid_snoc; [|assumption].
    eapply get_platforms_valid; eassumption.
  - intros platform_id b r d'. unfold put_platform, bind, lift.
    destruct (Platform_of_body b) as [e|p] eqn:Hb; [discriminate|].
    apply Platform_of_body_inr in Hb as [Hv _]. intros H.
    apply update_platform_inr in H as (Hload & _ & _ & _ & k & _ & ->).
    apply get_platforms_File. apply Forall_insert; [|assumption].
    eapply get_platforms_valid; eassumption.
  - intros platform_id msg d' H.
    apply delete_platform_inr in H as (Hload & _ & _ & -> & _).
    apply get_platforms_File. apply List.Forall_forall. intros r Hin.
    apply filter_In in Hin as [Hin _].
    pose proof (get_platforms_valid _ _ Hload) as Hv.
    rewrite List.Forall_forall in Hv. now apply Hv.
Qed.

Lemma routes_keep_file_loadable_witness :
  list_platforms (File [p1; p2_moved])
  = (inr (records (File [p1; p2_moved])), File [p1; p2_moved]).
Proof.
  apply (proj1 (proj2 (routes_keep_file_loadable (File [p1; p2]) WriteOk))
           "p2" (mkBody "p2" "10.0.0.9:5555" "fedcba9876543210" (Some "blue"))
           p2_moved (File [p1; p2_moved])).
  reflexivity.
Defined.

(** ** When a registration is refused *)

(** X10. On a file that loads, [register_platform] answers 400 exactly when
    some stored record shares the id, the address or the credential of the
    candidate while no stored record has all three; the answer does not depend
    on what a write would do. *)
Theorem register_conflict_iff d ps p w :
  get_platforms d = (inr ps, d) ->
  (exists detail,
     register_platform p w d = (inl (HTTPException 400 detail), d))
  <-> (forall q, In q ps -> same_platform p q = false)
      /\ exists q, In q ps
                   /\ (id q = id p \/ address q = address p
                       \/ public_credentials q = public_credentials p).
Proof.
  intros Hload. rewrite (register_platform_cases _ _ _ _ Hload).
  destruct (find_same p ps) as [r|] eqn:Hf.
  { split; [intros (detail & H); discriminate|].
    intros [Hnone _]. apply find_same_None in Hnone. congruence. }
  pose proof (proj1 (find_same_None _ _) Hf) as Hnone.
  destruct (existsb (fun q => String.eqb (id q) (id p)) ps) eqn:E1.
  { apply (any_field_true id) in E1 as (q & Hin & E).
    split; [|eauto]. intros _. split; [assumption|]. eauto. }
  destruct (existsb (fun q => String.eqb (address q) (address p)) ps) eqn:E2.
  { apply (any_field_true address) in E2 as (q & Hin & E).
    split; [|eauto]. intros _. split; [assumption|]. eauto. }
  destruct (existsb (fun q => String.eqb (public_credentials q)
                                (public_credentials p)) ps) eqn:E3.
  { apply (any_field_true public_credentials) in E3 as (q & Hin & E).
    split; [|eauto]. intros _. split; [assumption|]. eauto 6. }
  apply (any_field_false id) in E1.
  apply (any_field_false address) in E2.
  apply (any_field_false public_credentials) in E3.
  split.
  - intros (detail & H). destruct w; discriminate.
  - intros (_ & q & Hin & [E|[E|E]]); exfalso; eauto.
Qed.

Lemma register_conflict_iff_witness :
  (exists detail,
     register_platform p2_same_address OpenFails (File [p1])
     = (inl (HTTPException 400 detail), File [p1]))
  <-> (forall q, In q [p1] -> same_platform p2_same_address q = false)
      /\ exists q, In q [p1]
                   /\ (id q = id p2_same_address
                       \/ address q = address p2_same_address
                       \/ public_credentials q
                          = public_credentials p2_same_address).
Proof.
  apply (register_conflict_iff (File [p1]) [p1] p2_same_address OpenFails).
  reflexivity.
Defined.
